(** * pycosio: storage system, raw and buffered S3 streams

    A shallow embedding of [pycosio/_core/io_system.py] (class [SystemBase]),
    of [pycosio/storage/s3.py] ([_S3System], [S3RawIO], [S3BufferedIO]), of
    the helpers of [pycosio/storage/azure.py] and of [splitdrive] of
    [pycosio/_core/functions_os_path.py], with the properties of path
    resolution, directory virtualisation, listing, stat synthesis, range
    reads and multipart upload proved about it.

    Python exceptions are values of [exn]; a call that may raise returns a
    [result].  Generators are the finite sequence of what they yield, ended by
    a normal return or by the exception they raise ([gen]).  Dictionaries whose
    iteration order matters ([OrderedDict], headers) are association lists
    with the dictionary operations written out; the [seen] set of the listing
    is a [gset]. *)

From Stdlib Require Import Ascii String ZArith Lia.
From stdpp Require Import base list strings gmap sorting.

Open Scope string_scope.
Open Scope list_scope.

(** ** Exceptions and results *)

Inductive exn : Type :=
| ObjectNotFoundError (msg : string)
| ObjectPermissionError (msg : string)
| UnsupportedOperation (name : string)
| KeyError (key : string)
| IndexError
| ValueError (msg : string)
| TypeError (msg : string)
| ClientError (code : string) (msg : string)
| OtherError (msg : string).

Inductive result (A : Type) : Type :=
| Ok (a : A)
| Raise (e : exn).
Arguments Ok {A} a.
Arguments Raise {A} e.

Definition bind {A B : Type} (r : result A) (k : A -> result B) : result B :=
  match r with
  | Ok a => k a
  | Raise e => Raise e
  end.

Notation "'let*' x ':=' r 'in' k" := (bind r (fun x => k))
  (at level 10, x name, r at level 100, k at level 200).
Notation "'let*' ' p ':=' r 'in' k" := (bind r (fun x => let p := x in k))
  (at level 10, p strict pattern, r at level 100, k at level 200).

Definition is_not_found (e : exn) : bool :=
  match e with ObjectNotFoundError _ => true | _ => false end.
Definition is_permission (e : exn) : bool :=
  match e with ObjectPermissionError _ => true | _ => false end.
Definition is_unsupported (e : exn) : bool :=
  match e with UnsupportedOperation _ => true | _ => false end.

(** ** Python [str] methods used by the sources

    A [str] is held as the bytes of its UTF-8 encoding.  The methods below
    cut, strip and compare at occurrences of given text, and the character
    class of the filter is made of ASCII characters: on the encoding they do
    what Python does on the code points.  [str.lower] follows the Unicode
    tables and is a function of the runtime ([str_lower] of [PyLib]). *)

Module PyStr.

Definition slash : ascii := "/"%char.

Definition is_slash (c : ascii) : bool := Ascii.eqb c slash.

(** [not s] *)
Definition is_empty (s : string) : bool :=
  match s with EmptyString => true | String _ _ => false end.

Fixpoint drop (n : nat) (s : string) : string :=
  match n, s with
  | O, _ => s
  | S n', String _ s' => drop n' s'
  | S _, EmptyString => EmptyString
  end.

(** First occurrence of [sep] in [s]: the text before it and the text after it. *)
Fixpoint find_split (sep s : string) : option (string * string) :=
  if String.prefix sep s then Some (EmptyString, drop (String.length sep) s)
  else match s with
       | EmptyString => None
       | String c s' =>
           match find_split sep s' with
           | Some (a, b) => Some (String c a, b)
           | None => None
           end
       end.

(** [s.split(sep, 1)]: one or two pieces; an empty separator raises [ValueError]. *)
Definition split1 (sep s : string) : result (list string) :=
  if is_empty sep then Raise (ValueError "empty separator")
  else match find_split sep s with
       | Some (a, b) => Ok [a; b]
       | None => Ok [s]
       end.

(** [l[i]] on a list *)
Definition index {A : Type} (l : list A) (i : nat) : result A :=
  match l !! i with
  | Some a => Ok a
  | None => Raise IndexError
  end.

(** [s.lstrip('/')] *)
Fixpoint lstrip (s : string) : string :=
  match s with
  | String c s' => if is_slash c then lstrip s' else s
  | EmptyString => EmptyString
  end.

(** [s.rstrip('/')] *)
Fixpoint rstrip (s : string) : string :=
  match s with
  | String c s' =>
      let r := rstrip s' in
      if is_slash c && is_empty r then EmptyString else String c r
  | EmptyString => EmptyString
  end.

(** [s.strip('/')] *)
Definition strip (s : string) : string := rstrip (lstrip s).

(** ['/' in s] *)
Fixpoint has_slash (s : string) : bool :=
  match s with
  | String c s' => is_slash c || has_slash s'
  | EmptyString => false
  end.

(** [s[-1]] *)
Fixpoint last (s : string) : result ascii :=
  match s with
  | EmptyString => Raise IndexError
  | String c EmptyString => Ok c
  | String _ s' => last s'
  end.

(** [s[-1] == '/'] *)
Definition ends_with_slash (s : string) : result bool :=
  let* c := last s in Ok (is_slash c).

(** membership in the class [a-z0-9] *)
Definition is_lower_alnum (c : ascii) : bool :=
  let n := nat_of_ascii c in
  ((97 <=? n)%nat && (n <=? 122)%nat) || ((48 <=? n)%nat && (n <=? 57)%nat).

(** [compile(r'[^a-z0-9]*').sub('', s)]: every character outside [a-z0-9]
    is removed. *)
Fixpoint char_filter (s : string) : string :=
  match s with
  | String c s' =>
      if is_lower_alnum c then String c (char_filter s') else char_filter s'
  | EmptyString => EmptyString
  end.

(** a string of [k] separators *)
Fixpoint slashes (k : nat) : string :=
  match k with
  | O => EmptyString
  | S k' => String slash (slashes k')
  end.

End PyStr.


(** ** Generators

    [list_objects], [_list_objects] and [_list_locators] are generators: what
    a consumer observes is a finite run of yielded items that ends either with
    a normal return or with an exception. *)

Inductive gen (A : Type) : Type :=
| Return
| Yield (a : A) (g : gen A)
| Throw (e : exn).
Arguments Return {A}.
Arguments Yield {A} a g.
Arguments Throw {A} e.

Module Gen.

Fixpoint of_list {A : Type} (l : list A) : gen A :=
  match l with
  | [] => Return
  | a :: l' => Yield a (of_list l')
  end.

(** the items yielded, in order *)
Fixpoint items {A : Type} (g : gen A) : list A :=
  match g with
  | Yield a g' => a :: items g'
  | Return | Throw _ => []
  end.

(** how the generator ends: [None] for a normal return *)
Fixpoint ending {A : Type} (g : gen A) : option exn :=
  match g with
  | Yield _ g' => ending g'
  | Return => None
  | Throw e => Some e
  end.

Fixpoint map {A B : Type} (f : A -> B) (g : gen A) : gen B :=
  match g with
  | Return => Return
  | Yield a g' => Yield (f a) (map f g')
  | Throw e => Throw e
  end.

(** [for a in l: yield a], then [g] *)
Fixpoint prepend {A : Type} (l : list A) (g : gen A) : gen A :=
  match l with
  | [] => g
  | a :: l' => Yield a (prepend l' g)
  end.

(** the end of a generator alone *)
Definition finish {A : Type} (e : option exn) : gen A :=
  match e with
  | None => Return
  | Some e => Throw e
  end.

(** a call that may raise before the generator is obtained *)
Definition lift {A B : Type} (r : result A) (k : A -> gen B) : gen B :=
  match r with
  | Ok a => k a
  | Raise e => Throw e
  end.

(** [try: for x in g: yield x  except ObjectPermissionError: continue],
    followed by [k] (the rest of the enclosing loop) *)
Fixpoint try_permission {A : Type} (g k : gen A) : gen A :=
  match g with
  | Return => k
  | Yield a g' => Yield a (try_permission g' k)
  | Throw e => if is_permission e then k else Throw e
  end.

(** [next(g)]: [None] stands for [StopIteration] *)
Definition next {A : Type} (g : gen A) : result (option A) :=
  match g with
  | Return => Ok None
  | Yield a _ => Ok (Some a)
  | Throw e => Raise e
  end.

End Gen.

(** ** Header and stat dictionaries *)

(** Python values met in headers and in the stat structure.  A float is the
    dyadic number [mantissa * 2 ^ exponent]. *)
Inductive value : Type :=
| VInt (n : Z)
| VFloat (mantissa exponent : Z)
| VStr (s : string).

(** A [dict] / [OrderedDict], in insertion order. *)
Definition dict : Type := list (string * value).
Definition header : Type := dict.

Module Dict.

Fixpoint get (k : string) (d : dict) : option value :=
  match d with
  | [] => None
  | (k', v) :: d' => if String.eqb k k' then Some v else get k d'
  end.

Fixpoint remove (k : string) (d : dict) : dict :=
  match d with
  | [] => []
  | (k', v) :: d' => if String.eqb k k' then remove k d' else (k', v) :: remove k d'
  end.

(** [d.pop(k)]: the value and the dictionary without the key *)
Definition pop (k : string) (d : dict) : result value * dict :=
  match get k d with
  | Some v => (Ok v, remove k d)
  | None => (Raise (KeyError k), d)
  end.

(** [d[k] = v]: in place when the key exists, appended otherwise *)
Fixpoint set (k : string) (v : value) (d : dict) : dict :=
  match d with
  | [] => [(k, v)]
  | (k', v') :: d' =>
      if String.eqb k k' then (k', v) :: d' else (k', v') :: set k v d'
  end.

Definition keys (d : dict) : list string := d.*1.

End Dict.

(** Functions of the Python runtime and of [dateutil] that the module calls
    and does not define. *)
Record PyLib : Type := {
  (** [int(s)] on a [str] *)
  int_of_str : string -> result Z;
  (** [to_timestamp(parse(v))]: [TypeError] when [v] is not a string *)
  parse_timestamp : value -> result value;
  (** [float(v)] *)
  py_float : value -> result value;
  (** [s.lower()] *)
  str_lower : string -> string
}.

(** [int(v)] *)
Definition py_int (py : PyLib) (v : value) : result Z :=
  match v with
  | VInt n => Ok n
  | VFloat m e => Ok (if (0 <=? e)%Z then (m * 2 ^ e)%Z else (m ÷ 2 ^ (- e))%Z)
  | VStr s => int_of_str py s
  end.

(** [not v] *)
Definition falsy (v : value) : bool :=
  match v with
  | VInt n => (n =? 0)%Z
  | VFloat m _ => (m =? 0)%Z
  | VStr s => PyStr.is_empty s
  end.

Definition S_IFDIR : Z := 16384.
Definition S_IFREG : Z := 32768.

(** ** The storage system *)

(** A root is a literal string or a compiled pattern; a pattern is what its
    [split(path, maxsplit=1)] returns. *)
Inductive root : Type :=
| Literal (s : string)
| Pattern (split : string -> list string).

(** The abstract methods and the class attributes of [SystemBase]; a storage
    supplies them. *)
Record System (K : Type) : Type := {
  roots : list root;
  get_client_kwargs : string -> result K;
  _head : K -> result header;
  _list_locators : gen (string * header);
  _list_objects : K -> string -> option nat -> gen (string * header);
  _getsize_from_header : header -> result value * header;
  _getctime_from_header : header -> result value * header;
  _getmtime_from_header : header -> result value * header;
  pylib : PyLib
}.
Arguments roots {K} _.
Arguments get_client_kwargs {K} _ _.
Arguments _head {K} _ _.
Arguments _list_locators {K} _.
Arguments _list_objects {K} _ _ _ _.
Arguments _getsize_from_header {K} _ _.
Arguments _getctime_from_header {K} _ _.
Arguments _getmtime_from_header {K} _ _.
Arguments pylib {K} _.

(** *** Default header readers of [SystemBase] *)

(** [_getsize_from_header] over [_SIZE_KEYS] *)
Fixpoint getsize_from_keys (py : PyLib) (keys : list string) (h : header)
    : result value * header :=
  match keys with
  | [] => (Raise (UnsupportedOperation "getsize"), h)
  | key :: keys' =>
      match Dict.pop key h with
      | (Ok v, h') => (let* n := py_int py v in Ok (VInt n), h')
      | (Raise _, _) => getsize_from_keys py keys' h
      end
  end.

(** [_get_time(header, keys, name)] *)
Fixpoint _get_time (py : PyLib) (h : header) (keys : list string) (name : string)
    : result value * header :=
  match keys with
  | [] => (Raise (UnsupportedOperation name), h)
  | key :: keys' =>
      match Dict.pop key h with
      | (Ok date_value, h') =>
          (match parse_timestamp py date_value with
           | Raise (TypeError _) => py_float py date_value
           | r => r
           end, h')
      | (Raise _, _) => _get_time py h keys' name
      end
  end.

(** the class attributes [_SIZE_KEYS], [_CTIME_KEYS], [_MTIME_KEYS] *)
Definition _SIZE_KEYS : list string := ["Content-Length"].
Definition _CTIME_KEYS : list string := [].
Definition _MTIME_KEYS : list string := ["Last-Modified"].

(** *** Path resolution

    [relpath], [is_locator] and [split_locator] read nothing of the system but
    its [roots]; they take the tuple of roots, so that a storage can call them
    from its own [get_client_kwargs]. *)

Section Paths.

Variable roots : list root.

(** [root.split(path, maxsplit=1)] for a pattern, [path.split(root, 1)] for
    a string *)
Definition root_split (r : root) (path : string) : result (list string) :=
  match r with
  | Pattern split => Ok (split path)
  | Literal s => PyStr.split1 s path
  end.

(** the loop of [relpath] over the roots still to try *)
Fixpoint relpath_from (rs : list root) (path : string) : result string :=
  match rs with
  | [] => Ok path
  | r :: rs' =>
      let* pieces := root_split r path in
      match pieces !! 1%nat with
      | Some relative => Ok (PyStr.lstrip relative)
      | None => relpath_from rs' path
      end
  end.

Definition relpath (path : string) : result string :=
  relpath_from roots path.

Definition is_locator (path : string) (relative : bool) : result bool :=
  let* path := (if relative then Ok path else relpath path) in
  Ok (negb (PyStr.is_empty path) && negb (PyStr.has_slash (PyStr.rstrip path))).

Definition split_locator (path : string) : result (string * string) :=
  let* relative := relpath path in
  let* pieces := PyStr.split1 "/" relative in
  match pieces with
  | [locator; tail] => Ok (locator, tail)
  | _ => Ok (relative, "")
  end.

End Paths.

Section SystemBase.

Context {K : Type}.
Variable self : System K.

Definition head (path : string) (client_kwargs : option K)
    (header_arg : option header) : result header :=
  match header_arg with
  | Some h => Ok h
  | None =>
      let* kw := match client_kwargs with
           | Some kw => Ok kw
           | None => get_client_kwargs self path
           end in
      _head self kw
  end.

Definition exists_ (path : string) (client_kwargs : option K) : result bool :=
  match head path client_kwargs None with
  | Ok _ => Ok true
  | Raise e => if is_not_found e then Ok false else Raise e
  end.

(** *** list_objects *)

(** root listing, full tree: the loop over the locators *)
Fixpoint list_root_tree (locators : gen (string * header))
    (max_request_entries : option nat) : gen (string * header) :=
  match locators with
  | Return => Return
  | Throw e => Throw e
  | Yield (loc_path, loc_header) locators' =>
      let loc_path := PyStr.rstrip loc_path in
      Yield (loc_path, loc_header)
        (Gen.try_permission
           (Gen.map
              (fun obj : string * header =>
                 let '(obj_path, obj_header) := obj in
                 (loc_path +:+ "/" +:+ PyStr.lstrip obj_path, obj_header))
              (Gen.lift (get_client_kwargs self loc_path)
                 (fun kw => _list_objects self kw "" max_request_entries)))
           (list_root_tree locators' max_request_entries))
  end.

(** [obj_path.split(path, 1)[1].lstrip('/')] when [path] is not empty *)
Definition strip_prefix (path obj_path : string) : result string :=
  if PyStr.is_empty path then Ok obj_path
  else
    let* pieces := PyStr.split1 path obj_path in
    let* rest := PyStr.index pieces 1 in
    Ok (PyStr.lstrip rest).

(** the first-level name and header of an entry: a directory when
    [obj_path.strip('/').split('/', 1)] has two pieces *)
Definition first_level_entry (obj_path : string) (h : header) : string * header :=
  match PyStr.split1 "/" (PyStr.strip obj_path) with
  | Ok [dir; _] => (dir +:+ "/", [])
  | _ => (obj_path, h)
  end.

(** the loop over the entries of a locator or sub directory *)
Fixpoint list_sub (path : string) (first_level : bool) (seen : gset string)
    (entries : gen (string * header)) : gen (string * header) :=
  match entries with
  | Return => Return
  | Throw e => Throw e
  | Yield (obj_path, h) entries' =>
      match strip_prefix path obj_path with
      | Raise IndexError => list_sub path first_level seen entries'
      | Raise e => Throw e
      | Ok obj_path =>
          if PyStr.is_empty obj_path then list_sub path first_level seen entries'
          else if first_level then
            let '(obj_path, h) := first_level_entry obj_path h in
            if decide (obj_path ∈ seen)
            then list_sub path first_level seen entries'
            else Yield (obj_path, h)
                   (list_sub path first_level ({[obj_path]} ∪ seen) entries')
          else Yield (obj_path, h) (list_sub path first_level seen entries')
      end
  end.

Definition list_objects (path : string) (relative first_level : bool)
    (max_request_entries : option nat) : gen (string * header) :=
  Gen.lift (if relative then Ok path else relpath (roots self) path) (fun path =>
    if PyStr.is_empty path then
      if first_level then _list_locators self
      else list_root_tree (_list_locators self) max_request_entries
    else
      Gen.lift (split_locator (roots self) path) (fun located : string * string =>
        let '(locator, path) := located in
        Gen.lift (get_client_kwargs self locator) (fun kw =>
          list_sub path first_level ∅
            (_list_objects self kw path max_request_entries)))).

(** *** isdir, isfile *)

Definition isdir (path : string) (client_kwargs : option K)
    (virtual_dir : bool) : result bool :=
  let* relative := relpath (roots self) path in
  if PyStr.is_empty relative then Ok true
  else
    let* slash := PyStr.ends_with_slash path in
    let* dir_like := (if slash then Ok true else is_locator (roots self) relative true) in
    if dir_like then
      let* found := exists_ path client_kwargs in
      if found then Ok true
      else if virtual_dir then
        match Gen.next (list_objects relative true false (Some 1%nat)) with
        | Ok (Some _) => Ok true
        | Ok None => Ok false
        | Raise e =>
            if is_not_found e || is_unsupported e then Ok false else Raise e
        end
      else Ok false
    else Ok false.

Definition isfile (path : string) (client_kwargs : option K) : result bool :=
  let* relative := relpath (roots self) path in
  if PyStr.is_empty relative then Ok false
  else
    let* slash := PyStr.ends_with_slash path in
    if negb slash then
      let* locator := is_locator (roots self) path true in
      if negb locator then exists_ path client_kwargs else Ok false
    else Ok false.

(** *** stat *)

(** the strict minimum of [os.stat_result] *)
Definition stat_fields : list string :=
  ["st_mode"; "st_ino"; "st_dev"; "st_nlink"; "st_uid"; "st_gid"; "st_size";
   "st_atime"; "st_mtime"; "st_ctime"].

Definition stat_init : dict := (fun k => (k, VInt 0)) <$> stat_fields.

(** one round of the loop over the standard readers:
    [try: stat[key] = int(method(header)) except UnsupportedOperation: continue] *)
Definition stat_read (key : string)
    (method : header -> result value * header)
    (st : dict) (h : header) : result (dict * header) :=
  let '(r, h') := method h in
  match (let* v := r in py_int (pylib self) v) with
  | Ok n => Ok (Dict.set key (VInt n) st, h')
  | Raise e => if is_unsupported e then Ok (st, h') else Raise e
  end.

(** [not path or path[-1] == '/' or self.is_locator(path)] *)
Definition dir_like_path (path : string) : result bool :=
  if PyStr.is_empty path then Ok true
  else
    let* slash := PyStr.ends_with_slash path in
    if slash then Ok true else is_locator (roots self) path false.

(** ['st_' + sub('', key.lower())] *)
Definition stat_key (key : string) : string :=
  "st_" +:+ PyStr.char_filter (str_lower (pylib self) key).

(** the loop that adds the storage specific keys *)
Definition add_header_keys (st : dict) (h : header) : dict :=
  fold_left (fun st kv => Dict.set (stat_key kv.1) kv.2 st) h st.

(** the loop over the three standard readers *)
Definition stat_standard (st : dict) (h : header) : result (dict * header) :=
  let* '(st, h) := stat_read "st_size" (_getsize_from_header self) st h in
  let* '(st, h) := stat_read "st_ctime" (_getctime_from_header self) st h in
  stat_read "st_mtime" (_getmtime_from_header self) st h.

(** [stat]; an absent path ([None]) is the empty string, both being falsy.
    The result is the ordered dictionary the named tuple is built from. *)
Definition stat (path : string) (client_kwargs : option K)
    (header_arg : option header) : result dict :=
  let st := stat_init in
  let* h := head path client_kwargs header_arg in
  let* '(st, h) := stat_standard st h in
  let* dir_like := dir_like_path path in
  let* size := match Dict.get "st_size" st with
               | Some v => Ok v
               | None => Raise (KeyError "st_size")
               end in
  let st := Dict.set "st_mode"
              (VInt (if dir_like && falsy size then S_IFDIR else S_IFREG)) st in
  Ok (add_header_keys st h).

End SystemBase.

(** ** Amazon S3 storage ([pycosio/storage/s3.py]) *)

Module S3.

Definition bytes : Type := list Byte.byte.

(** [_ERROR_CODES] *)
Definition _ERROR_CODES (code : string) : option (string -> exn) :=
  if String.eqb code "AccessDenied" then Some ObjectPermissionError
  else if String.eqb code "NoSuchKey" then Some ObjectNotFoundError
  else if String.eqb code "403" then Some ObjectPermissionError
  else if String.eqb code "404" then Some ObjectNotFoundError
  else None.

(** [with _handle_client_error(): ...] around a client call *)
Definition _handle_client_error {A : Type} (r : result A) : result A :=
  match r with
  | Raise (ClientError code msg) =>
      match _ERROR_CODES code with
      | Some error => Raise (error msg)
      | None => Raise (ClientError code msg)
      end
  | _ => r
  end.

(** *** [_S3System._list_objects] *)

(** the keyword arguments of a listing request *)
Record ListKwargs : Type := {
  Bucket : string;
  ContinuationToken : option string
}.

(** the response of [list_objects_v2]: ['Contents'] and
    ['NextContinuationToken'] are present or not *)
Record ListResponse : Type := {
  Contents : option (list dict);
  NextContinuationToken : option string
}.

(** [for obj in contents: yield obj.pop('Key'), obj], then [k] *)
Fixpoint yield_contents (contents : list dict) (k : gen (string * header))
    : gen (string * header) :=
  match contents with
  | [] => k
  | obj :: contents' =>
      match Dict.pop "Key" obj with
      | (Ok (VStr key), obj') => Yield (key, obj') (yield_contents contents' k)
      | (Ok _, _) => Throw (TypeError "Key")
      | (Raise e, _) => Throw e
      end
  end.

(** The [while True] loop, one request per unit of [pages]; the listing of
    a bucket whose pages outnumber [pages] is cut there.  The method takes
    [client_kwargs] and [path] only: it has no parameter for the
    [max_request_entries] that [SystemBase.list_objects] passes. *)
Fixpoint _list_objects
    (list_objects_v2 : string -> ListKwargs -> result ListResponse)
    (pages : nat) (client_kwargs : ListKwargs) (path : string)
    : gen (string * header) :=
  match pages with
  | O => Return
  | S pages' =>
      match _handle_client_error (list_objects_v2 path client_kwargs) with
      | Raise e => Throw e
      | Ok response =>
          match Contents response with
          | None => Throw (KeyError "Contents")
          | Some contents =>
              yield_contents contents
                match NextContinuationToken response with
                | Some token =>
                    _list_objects list_objects_v2 pages'
                      {| Bucket := Bucket client_kwargs;
                         ContinuationToken := Some token |} path
                | None => Return
                end
          end
      end
  end.

(** *** [S3RawIO._read_range] *)

Section RawIO.

(** the type of the [Range] argument and of [_client_kwargs] *)
Context {R K : Type}.
(** [self._client.get_object(Range=..., **kwargs)]: the response is what
    reading its ['Body'] gives *)
Variable get_object : R -> K -> result (result bytes).
(** [_http_range] of [ObjectRawIOBase] *)
Variable _http_range : Z -> Z -> R.
Variable _client_kwargs : K.


End RawIO.

(** *** [S3BufferedIO] in write mode *)

(** what the client and the worker pool are asked to do, in order *)
Inductive event : Type :=
| CreateMultipartUpload
| SubmitUploadPart (part_number : Z) (body : bytes) (upload_id : string)
| FutureResult (part_number : Z)
| CompleteMultipartUpload (parts : list (Z * string)) (upload_id : string).

(** an element of [_write_futures]: [response] is popped and [ETag] set
    when the part has been waited for *)
Record part : Type := {
  response : option (result string);
  PartNumber : Z;
  ETag : option string
}.

Record stream : Type := {
  _seek : Z;
  UploadId : option string;
  _write_futures : list part;
  log : list event
}.

Section BufferedIO.

(** [self._client.create_multipart_upload(...)['UploadId']] *)
Variable create_multipart_upload : result string.
(** what [upload_part] run by a worker ends with: the ['ETag'] of its
    response or the exception it raises *)
Variable upload_part : bytes -> Z -> string -> result string.

(** [_flush]; [buffer] is [self._get_buffer().tobytes()] *)
Definition _flush (buffer : bytes) (s : stream) : result unit * stream :=
  let created :=
    match UploadId s with
    | Some id => (Ok id, s)
    | None =>
        let s := {| _seek := _seek s; UploadId := UploadId s;
                    _write_futures := _write_futures s;
                    log := log s ++ [CreateMultipartUpload] |} in
        match _handle_client_error create_multipart_upload with
        | Ok id => (Ok id, {| _seek := _seek s; UploadId := Some id;
                              _write_futures := _write_futures s;
                              log := log s |})
        | Raise e => (Raise e, s)
        end
    end in
  match created with
  | (Raise e, s) => (Raise e, s)
  | (Ok id, s) =>
      let future := upload_part buffer (_seek s) id in
      (Ok tt,
       {| _seek := _seek s; UploadId := UploadId s;
          _write_futures :=
            _write_futures s ++
              [{| response := Some future; PartNumber := _seek s; ETag := None |}];
          log := log s ++ [SubmitUploadPart (_seek s) buffer id] |})
  end.

(** [for part in self._write_futures:
       part['ETag'] = part.pop('response').result()['ETag']]
    over the parts still to visit; returns the parts as the loop leaves
    them and the waits it made *)
Fixpoint wait_parts (parts : list part) : result unit * list part * list event :=
  match parts with
  | [] => (Ok tt, [], [])
  | p :: parts' =>
      match response p with
      | None => (Raise (KeyError "response"), p :: parts', [])
      | Some future =>
          match future with
          | Raise e =>
              (Raise e,
               {| response := None; PartNumber := PartNumber p; ETag := ETag p |}
                 :: parts',
               [FutureResult (PartNumber p)])
          | Ok etag =>
              let '(r, done, waits) := wait_parts parts' in
              (r,
               {| response := None; PartNumber := PartNumber p; ETag := Some etag |}
                 :: done,
               FutureResult (PartNumber p) :: waits)
          end
      end
  end.

(** the ['Parts'] argument: part numbers and tags, in list order *)
Definition parts_argument (parts : list part) : list (Z * string) :=
  omap (fun p => match ETag p with
                 | Some etag => Some (PartNumber p, etag)
                 | None => None
                 end) parts.

Definition _close_writable (s : stream) : result unit * stream :=
  let '(r, parts, waits) := wait_parts (_write_futures s) in
  let s := {| _seek := _seek s; UploadId := UploadId s;
              _write_futures := parts; log := log s ++ waits |} in
  match r with
  | Raise e => (Raise e, s)
  | Ok _ =>
      match UploadId s with
      | None => (Raise (KeyError "UploadId"), s)
      | Some id =>
          (Ok tt,
           {| _seek := _seek s; UploadId := UploadId s;
              _write_futures := _write_futures s;
              log := log s ++ [CompleteMultipartUpload (parts_argument parts) id] |})
      end
  end.

(** The caller ([ObjectBufferedIOBase], outside these sources) numbers
    the buffers in [_seek] before each [_flush]: parts [first],
    [first + 1], ... for the buffers given. *)
Fixpoint dispatch (first : Z) (buffers : list bytes) (s : stream)
    : result unit * stream :=
  match buffers with
  | [] => (Ok tt, s)
  | buffer :: buffers' =>
      match _flush buffer {| _seek := first; UploadId := UploadId s;
                             _write_futures := _write_futures s;
                             log := log s |} with
      | (Ok _, s') => dispatch (first + 1) buffers' s'
      | (Raise e, s') => (Raise e, s')
      end
  end.

(** a stream just opened for writing *)
Definition opened : stream :=
  {| _seek := 0; UploadId := None; _write_futures := []; log := [] |}.

(** write [buffers] as parts 1, 2, ... and close *)
Definition write_and_close (buffers : list bytes) : result unit * stream :=
  match dispatch 1 buffers opened with
  | (Ok _, s) => _close_writable s
  | (Raise e, s) => (Raise e, s)
  end.

End BufferedIO.

End S3.

(** ** A flat in-memory object store

    Objects are kept by relative path ([locator/key]) with their header, in
    listing order; nothing else exists: a locator or a directory has a header
    only when it is stored itself.  It is the storage the examples below run
    on. *)

Module MemStore.

Definition kwargs : Type := (string * string)%type.

Definition object_path (kw : kwargs) : string :=
  if PyStr.is_empty kw.2 then kw.1 else kw.1 +:+ "/" +:+ kw.2.

Fixpoint lookup (path : string) (objects : list (string * header)) : option header :=
  match objects with
  | [] => None
  | (p, h) :: objects' => if String.eqb p path then Some h else lookup path objects'
  end.

Definition head (objects : list (string * header)) (kw : kwargs) : result header :=
  match lookup (object_path kw) objects with
  | Some h => Ok h
  | None => Raise (ObjectNotFoundError (object_path kw))
  end.

(** the key of an object inside [locator], when it is there and starts
    with [prefix] *)
Definition key_in (locator prefix : string) (object : string * header)
    : option (string * header) :=
  let inside := locator +:+ "/" in
  if String.prefix inside object.1 then
    let key := PyStr.drop (String.length inside) object.1 in
    if String.prefix prefix key then Some (key, object.2) else None
  else None.

Definition list_objects (objects : list (string * header)) (kw : kwargs)
    (prefix : string) (max_request_entries : option nat) : gen (string * header) :=
  let found := omap (key_in kw.1 prefix) objects in
  Gen.of_list match max_request_entries with
              | Some n => take n found
              | None => found
              end.

(** decimal digits only *)
Fixpoint digits (s : string) (acc : Z) : result Z :=
  match s with
  | EmptyString => Ok acc
  | String c s' =>
      let n := nat_of_ascii c in
      if (48 <=? n)%nat && (n <=? 57)%nat
      then digits s' (10 * acc + Z.of_nat (n - 48))
      else Raise (ValueError "invalid literal for int()")
  end.

(** [str.lower] on ASCII text: the letters [A-Z] are lowered, every other
    byte is kept *)
Definition lower_char (c : ascii) : ascii :=
  let n := nat_of_ascii c in
  if (65 <=? n)%nat && (n <=? 90)%nat then ascii_of_nat (n + 32) else c.

Fixpoint lower (s : string) : string :=
  match s with
  | String c s' => String (lower_char c) (lower s')
  | EmptyString => EmptyString
  end.

Definition py : PyLib :=
  {| int_of_str := fun s =>
       if PyStr.is_empty s then Raise (ValueError "invalid literal for int()")
       else digits s 0;
     parse_timestamp := fun v =>
       match v with
       | VStr s => let* n := digits s 0 in Ok (VFloat n 0)
       | _ => Raise (TypeError "Parser must be a string")
       end;
     py_float := fun v =>
       match v with
       | VInt n => Ok (VFloat n 0)
       | VFloat m e => Ok (VFloat m e)
       | VStr _ => Raise (ValueError "could not convert string to float")
       end;
     str_lower := lower |}.

Definition system (rs : list root) (locators : list (string * header))
    (objects : list (string * header)) : System kwargs :=
  {| roots := rs;
     get_client_kwargs := split_locator rs;
     _head := head objects;
     _list_locators := Gen.of_list locators;
     _list_objects := list_objects objects;
     _getsize_from_header := getsize_from_keys py _SIZE_KEYS;
     _getctime_from_header := fun h => _get_time py h _CTIME_KEYS "getctime";
     _getmtime_from_header := fun h => _get_time py h _MTIME_KEYS "getmtime";
     pylib := py |}.

End MemStore.

(** ** The other methods of [SystemBase] *)

Section SystemBaseOthers.

Context {K : Type}.
Variable self : System K.

(** [getsize], [getctime], [getmtime]: the reader applied to the header that
    [head] gives *)
Definition getsize (path : string) (client_kwargs : option K)
    (header_arg : option header) : result value :=
  let* h := head self path client_kwargs header_arg in
  (_getsize_from_header self h).1.

Definition getctime (path : string) (client_kwargs : option K)
    (header_arg : option header) : result value :=
  let* h := head self path client_kwargs header_arg in
  (_getctime_from_header self h).1.

Definition getmtime (path : string) (client_kwargs : option K)
    (header_arg : option header) : result value :=
  let* h := head self path client_kwargs header_arg in
  (_getmtime_from_header self h).1.

(** [ensure_dir_path] *)
Definition ensure_dir_path (path : string) (relative : bool) : result string :=
  let* rel_path := (if relative then Ok path else relpath (roots self) path) in
  let* locator := is_locator (roots self) rel_path true in
  if locator then Ok (PyStr.rstrip path)
  else if negb (PyStr.is_empty rel_path) then Ok (PyStr.rstrip path +:+ "/")
  else Ok path.

(** [make_dir]; [_make_dir] is the method of the storage *)
Definition make_dir {A : Type} (_make_dir : K -> result A)
    (path : string) (relative : bool) : result A :=
  let* path := (if relative then Ok path else relpath (roots self) path) in
  let* dir_path := ensure_dir_path path true in
  let* kw := get_client_kwargs self dir_path in
  _make_dir kw.

(** [remove]; [_remove] is the method of the storage *)
Definition remove {A : Type} (_remove : K -> result A)
    (path : string) (relative : bool) : result A :=
  let* path := (if relative then Ok path else relpath (roots self) path) in
  let* kw := get_client_kwargs self path in
  _remove kw.

End SystemBaseOthers.

(** what [SystemBase] does when the storage does not override the method *)
Definition copy_default (src dst : string) : result unit :=
  Raise (UnsupportedOperation "").
Definition _make_dir_default {K : Type} (client_kwargs : K) : result unit :=
  Raise (UnsupportedOperation "mkdir").
Definition _remove_default {K : Type} (client_kwargs : K) : result unit :=
  Raise (UnsupportedOperation "remove").
Definition _list_locators_default : gen (string * header) :=
  Throw (UnsupportedOperation "listdir").
Definition _list_objects_default {K : Type} (client_kwargs : K) (path : string)
    (max_request_entries : option nat) : gen (string * header) :=
  Throw (UnsupportedOperation "listdir").

(** ** The S3 system ([_S3System]) *)

Module S3System.

(** the keyword arguments [get_client_kwargs] builds *)
Record Kwargs : Type := {
  Bucket : string;
  Key : option string
}.

Definition get_client_kwargs (rs : list root) (path : string) : result Kwargs :=
  let* '(bucket_name, key) := split_locator rs path in
  Ok {| Bucket := bucket_name;
        Key := if PyStr.is_empty key then None else Some key |}.

(** [_getctime_from_header], [_getmtime_from_header]; [to_timestamp] is the
    function of [pycosio._core.compat] *)
Definition timestamp_from_header (to_timestamp : value -> result value)
    (key name : string) (h : header) : result value * header :=
  let '(r, h') := Dict.pop key h in
  match (let* v := r in to_timestamp v) with
  | Raise (KeyError _) => (Raise (UnsupportedOperation name), h')
  | r' => (r', h')
  end.

Definition _getctime_from_header (to_timestamp : value -> result value)
    (h : header) : result value * header :=
  timestamp_from_header to_timestamp "CreationDate" "getctime" h.

Definition _getmtime_from_header (to_timestamp : value -> result value)
    (h : header) : result value * header :=
  timestamp_from_header to_timestamp "LastModified" "getmtime" h.

Definition _getsize_from_header (h : header) : result value * header :=
  match Dict.pop "ContentLength" h with
  | (Raise (KeyError _), h') => (Raise (UnsupportedOperation "getsize"), h')
  | r => r
  end.

(** the requests of the system that change the storage *)
Inductive request : Type :=
| PutObject (body : S3.bytes) (kw : Kwargs)
| CreateBucket (bucket : string)
| DeleteObject (kw : Kwargs)
| DeleteBucket (bucket : string)
| CopyObject (copy_source : Kwargs) (kw : Kwargs).

(** the boto3 client, by the calls the system makes *)
Record Client : Type := {
  head_object : Kwargs -> result header;
  head_bucket : Kwargs -> result header;
  list_buckets : result (list dict);
  send : request -> result unit
}.

Definition _head (client : Client) (client_kwargs : Kwargs) : result header :=
  let* h := S3._handle_client_error
              match Key client_kwargs with
              | Some _ => head_object client client_kwargs
              | None => head_bucket client client_kwargs
              end in
  Ok (Dict.remove "ResponseMetadata" (Dict.remove "AcceptRanges" h)).

Definition _make_dir (client : Client) (client_kwargs : Kwargs) : result unit :=
  S3._handle_client_error
    match Key client_kwargs with
    | Some _ => send client (PutObject [] client_kwargs)
    | None => send client (CreateBucket (Bucket client_kwargs))
    end.

Definition _remove (client : Client) (client_kwargs : Kwargs) : result unit :=
  S3._handle_client_error
    match Key client_kwargs with
    | Some _ => send client (DeleteObject client_kwargs)
    | None => send client (DeleteBucket (Bucket client_kwargs))
    end.

Definition copy (rs : list root) (client : Client) (src dst : string) : result unit :=
  let* copy_source := get_client_kwargs rs src in
  let* copy_destination := get_client_kwargs rs dst in
  S3._handle_client_error (send client (CopyObject copy_source copy_destination)).

(** [for bucket in buckets: yield bucket.pop('Name'), bucket] *)
Fixpoint yield_buckets (buckets : list dict) : gen (string * header) :=
  match buckets with
  | [] => Return
  | bucket :: buckets' =>
      match Dict.pop "Name" bucket with
      | (Ok (VStr name), bucket') => Yield (name, bucket') (yield_buckets buckets')
      | (Ok _, _) => Throw (TypeError "Name")
      | (Raise e, _) => Throw e
      end
  end.

Definition _list_locators (client : Client) : gen (string * header) :=
  match S3._handle_client_error (list_buckets client) with
  | Raise e => Throw e
  | Ok buckets => yield_buckets buckets
  end.

End S3System.

(** The S3 system as [SystemBase] sees it.  [list_objects] calls
    [_list_objects] with [max_request_entries], an argument the method of
    [_S3System] does not take ([S3._list_objects]): the call raises
    [TypeError]. *)
Definition s3_system (rs : list root) (client : S3System.Client) (py : PyLib)
    (to_timestamp : value -> result value) : System S3System.Kwargs :=
  {| roots := rs;
     get_client_kwargs := S3System.get_client_kwargs rs;
     _head := S3System._head client;
     _list_locators := S3System._list_locators client;
     _list_objects := fun _ _ _ =>
       Throw (TypeError "_list_objects() takes 3 positional arguments but 4 were given");
     _getsize_from_header := S3System._getsize_from_header;
     _getctime_from_header := S3System._getctime_from_header to_timestamp;
     _getmtime_from_header := S3System._getmtime_from_header to_timestamp;
     pylib := py |}.

(** ** Azure helpers ([pycosio/storage/azure.py]) *)

Module Azure.

(** [_update_storage_parameters]; an absent or empty dictionary gives a new
    one *)
Definition _update_storage_parameters (storage_parameters : option dict)
    (unsecure : bool) : dict :=
  let parameters := match storage_parameters with
                    | Some (kv :: d) => kv :: d
                    | _ => []
                    end in
  if unsecure then Dict.set "protocol" (VStr "http") parameters else parameters.

(** [_update_listing_client_kwargs] *)
Definition _update_listing_client_kwargs (client_kwargs : dict)
    (max_request_entries : option nat) : dict :=
  match max_request_entries with
  | Some (S n) => Dict.set "num_results" (VInt (Z.of_nat (S n))) client_kwargs
  | _ => client_kwargs
  end.

End Azure.

(** ** [os.path] equivalents ([pycosio/_core/functions_os_path.py])

    The functions take the roots of the system [get_instance] gives for the
    path.  Each is defined under the decorator [equivalent_to], imported from
    [pycosio/_core/functions_core.py]: that module is not among these
    sources, so the decorator is a parameter, and so is the standard function
    it is given. *)

Module OsPath.

(** last occurrence of [sep] in [s]: the text before it and the text after *)
Fixpoint rfind_split (sep s : string) : option (string * string) :=
  match s with
  | EmptyString =>
      if String.prefix sep s then Some (EmptyString, EmptyString) else None
  | String c s' =>
      match rfind_split sep s' with
      | Some (a, b) => Some (String c a, b)
      | None =>
          if String.prefix sep s
          then Some (EmptyString, PyStr.drop (String.length sep) s)
          else None
      end
  end.

(** [s.rsplit(sep, 1)] *)
Definition rsplit1 (sep s : string) : result (list string) :=
  if PyStr.is_empty sep then Raise (ValueError "empty separator")
  else match rfind_split sep s with
       | Some (a, b) => Ok [a; b]
       | None => Ok [s]
       end.

(** [s[-2:]] *)
Fixpoint last2 (s : string) : string :=
  match s with
  | String a s' =>
      match s' with
      | String b (String c r) => last2 s'
      | _ => s
      end
  | EmptyString => EmptyString
  end.

(** [equivalent_to(std_function)(cos_function)]: the function of the path
    that the decorator makes of the standard function and of the function
    written under it *)
Definition decorator (A : Type) : Type :=
  (string -> result A) -> (string -> result A) -> string -> result A.

(** the body of [splitdrive]: what the function written under the decorator
    does with the path it is called with *)
Definition splitdrive_body (rs : list root) (path : string)
    : result (string * string) :=
  let* relative := relpath rs path in
  let* pieces := rsplit1 relative path in
  let* drive := PyStr.index pieces 0 in
  if negb (PyStr.is_empty drive) && negb (String.eqb (last2 drive) "//")
  then Ok (PyStr.rstrip drive, "/" +:+ relative)
  else Ok (drive, relative).

(** [splitdrive], as the module binds it:
    [equivalent_to(os.path.splitdrive)] applied to the function above *)
Definition splitdrive (equivalent_to : decorator (string * string))
    (os_path_splitdrive : string -> result (string * string))
    (rs : list root) : string -> result (string * string) :=
  equivalent_to os_path_splitdrive (splitdrive_body rs).

End OsPath.

(** * Vocabulary of the properties *)

Definition starts_with_slash (s : string) : bool :=
  match s with
  | String c _ => PyStr.is_slash c
  | EmptyString => false
  end.



(** a store whose only content is the locator [bucket] *)
Definition bucket_store : System MemStore.kwargs :=
  MemStore.system [Literal "s3://"] [("bucket", [])] [("bucket", [])].

(** the answer of S3 for a prefix under which nothing is stored *)
Definition empty_listing (prefix : string) (kw : S3.ListKwargs)
    : result S3.ListResponse :=
  Ok {| S3.Contents := None; S3.NextContinuationToken := None |}.

(** the generator of the content of a locator, as the loop of the root
    listing obtains it *)
Definition locator_content {K : Type} (self : System K)
    (max_request_entries : option nat) (loc_path : string) : gen (string * header) :=
  Gen.lift (get_client_kwargs self loc_path)
    (fun kw => _list_objects self kw "" max_request_entries).

(** the name under which an object of a locator is yielded *)
Definition in_locator (loc_path : string) (obj : string * header) : string * header :=
  (loc_path +:+ "/" +:+ PyStr.lstrip obj.1, obj.2).

(** a store with three locators; listing [closed] yields one object and is
    then refused *)
Definition guarded_store : System MemStore.kwargs :=
  let objects := [("open/a", []); ("last/z", [])] in
  {| roots := [Literal "s3://"];
     get_client_kwargs := split_locator [Literal "s3://"];
     _head := MemStore.head objects;
     _list_locators := Gen.of_list [("open/", []); ("closed", []); ("last", [])];
     _list_objects := fun kw prefix max_request_entries =>
       if String.eqb kw.1 "closed"
       then Yield ("x", []) (Throw (ObjectPermissionError "closed"))
       else MemStore.list_objects objects kw prefix max_request_entries;
     _getsize_from_header := getsize_from_keys MemStore.py _SIZE_KEYS;
     _getctime_from_header := fun h => _get_time MemStore.py h _CTIME_KEYS "getctime";
     _getmtime_from_header := fun h => _get_time MemStore.py h _MTIME_KEYS "getmtime";
     pylib := MemStore.py |}.

(** the exception that leaves [with _handle_client_error()] when the client
    raises [e] *)
Definition translated (e : exn) : exn :=
  match e with
  | ClientError code msg =>
      match S3._ERROR_CODES code with
      | Some error => error msg
      | None => e
      end
  | _ => e
  end.


(** the buffers of a stream with the part numbers they are flushed under *)
Fixpoint numbered (first : Z) (buffers : list S3.bytes) : list (Z * S3.bytes) :=
  match buffers with
  | [] => []
  | buffer :: buffers' => (first, buffer) :: numbered (first + 1) buffers'
  end.

(** the request that submits a numbered buffer to the worker pool *)
Definition submitted (id : string) (nb : Z * S3.bytes) : S3.event :=
  S3.SubmitUploadPart nb.1 nb.2 id.

(** the completion call is in the log *)
Definition completed (s : S3.stream) : Prop :=
  exists parts id, S3.CompleteMultipartUpload parts id ∈ S3.log s.

(** three buffers of which the second cannot be uploaded *)
Definition second_part_fails (body : S3.bytes) (part_number : Z) (id : string)
    : result string :=
  if (part_number =? 2)%Z then Raise (OtherError "part 2 refused")
  else Ok "etag".

(** what the worker that uploads a numbered buffer ends with *)
Definition outcome (upload_part : S3.bytes -> Z -> string -> result string)
    (id : string) (nb : Z * S3.bytes) : result string :=
  upload_part nb.2 nb.1 id.

(** the element of [_write_futures] for a numbered buffer just submitted *)
Definition pending (upload_part : S3.bytes -> Z -> string -> result string)
    (id : string) (nb : Z * S3.bytes) : S3.part :=
  {| S3.response := Some (outcome upload_part id nb);
     S3.PartNumber := nb.1;
     S3.ETag := None |}.

(** the name left of a listed key under [path]; [None] when the entry is
    skipped *)
Definition remainder (path obj_path : string) : option string :=
  match strip_prefix path obj_path with
  | Ok r => if PyStr.is_empty r then None else Some r
  | Raise _ => None
  end.

(** the first-level names and headers of the entries listed, in the order
    of the entries and with repetitions *)
Definition candidates (path : string) (entries : list (string * header))
    : list (string * header) :=
  omap (fun entry : string * header =>
          match remainder path entry.1 with
          | Some r => Some (first_level_entry r entry.2)
          | None => None
          end) entries.

(** a locator holding [a/x], [a/y] and [b] *)
Definition abc_store : System MemStore.kwargs :=
  MemStore.system [Literal "s3://"] []
    [("loc/a/x", [("Content-Length", VInt 1)]);
     ("loc/a/y", [("Content-Length", VInt 2)]);
     ("loc/b", [("Content-Length", VInt 3)])].

(** a locator holding the directory object [a/] and [a/x] *)
Definition marker_store : System MemStore.kwargs :=
  MemStore.system [Literal "s3://"] []
    [("loc/a/", [("Content-Length", VInt 0)]);
     ("loc/a/x", [("Content-Length", VInt 1)])].

(** a store whose only object is [dir/file.txt] *)
Definition file_store : System MemStore.kwargs :=
  MemStore.system [Literal "s3://"] [] [("dir/file.txt", [("Content-Length", VInt 3)])].

(** a store whose only object is [loc/dir//] *)
Definition double_separator_store : System MemStore.kwargs :=
  MemStore.system [Literal "s3://"] [] [("loc/dir//", [("Content-Length", VInt 3)])].

(** the size read from a header, 0 when the reader gives none *)
Definition size_read {K : Type} (self : System K) (h : header) : Z :=
  match (let* v := (_getsize_from_header self h).1 in py_int (pylib self) v) with
  | Ok n => n
  | Raise _ => 0%Z
  end.

(** what a standard reader gives is an integer for [int], or the reader
    reports the attribute as unsupported *)
Definition readable (py : PyLib) (r : result value) : Prop :=
  match (let* v := r in py_int py v) with
  | Ok _ => True
  | Raise e => is_unsupported e = true
  end.

(** the reader reports the attribute as unsupported *)
Definition unsupported (r : result value) : Prop :=
  exists name, r = Raise (UnsupportedOperation name).

(** no literal root is the empty string ([str.split] refuses an empty
    separator) *)
Definition roots_ok (rs : list root) : Prop :=
  Forall (fun r => match r with Literal s => s <> "" | Pattern _ => True end) rs.

(** the stat dictionary once the value of a standard reader is stored under
    [key], left as it is when the reader gives none *)
Definition stored (py : PyLib) (key : string) (r : result value) (st : dict) : dict :=
  match (let* v := r in py_int py v) with
  | Ok n => Dict.set key (VInt n) st
  | Raise _ => st
  end.

(** every root is a literal string *)
Definition literal_roots (rs : list root) : Prop :=
  Forall (fun r => exists s, r = Literal s) rs.

(** a storage that holds nothing and does not override the listing *)
Definition unlistable_store : System MemStore.kwargs :=
  {| roots := [Literal "s3://"];
     get_client_kwargs := split_locator [Literal "s3://"];
     _head := MemStore.head [];
     _list_locators := _list_locators_default;
     _list_objects := _list_objects_default;
     _getsize_from_header := getsize_from_keys MemStore.py _SIZE_KEYS;
     _getctime_from_header := fun h => _get_time MemStore.py h _CTIME_KEYS "getctime";
     _getmtime_from_header := fun h => _get_time MemStore.py h _MTIME_KEYS "getmtime";
     pylib := MemStore.py |}.


(** the names and headers of the entries that have a remainder, in the order
    of the entries *)
Definition listed (path : string) (entries : list (string * header))
    : list (string * header) :=
  omap (fun entry : string * header =>
          match remainder path entry.1 with
          | Some r => Some (r, entry.2)
          | None => None
          end) entries.

(** the content of the locator can be enumerated: it ends normally or with
    a permission error *)
Definition enumerable {K : Type} (self : System K)
    (max_request_entries : option nat) (locator : string * header) : Prop :=
  match Gen.ending (locator_content self max_request_entries
                      (PyStr.rstrip locator.1)) with
  | None => True
  | Some e => is_permission e = true
  end.

(** the name and header that the S3 listing yields for an object of a
    response, when the object has a ['Key'] that is a string *)
Definition keyed (obj : dict) : option (string * header) :=
  match Dict.get "Key" obj with
  | Some (VStr key) => Some (key, Dict.remove "Key" obj)
  | _ => None
  end.

(** [pages] are the contents of the successive responses of [list_objects_v2]
    for [bucket] and [path], from the request made with [token] to the
    response without continuation token *)
Inductive paged (list_objects_v2 : string -> S3.ListKwargs -> result S3.ListResponse)
    (bucket path : string) : option string -> list (list dict) -> Prop :=
| paged_last token contents :
    list_objects_v2 path {| S3.Bucket := bucket; S3.ContinuationToken := token |}
    = Ok {| S3.Contents := Some contents; S3.NextContinuationToken := None |} ->
    paged list_objects_v2 bucket path token [contents]
| paged_more token contents next pages :
    list_objects_v2 path {| S3.Bucket := bucket; S3.ContinuationToken := token |}
    = Ok {| S3.Contents := Some contents; S3.NextContinuationToken := Some next |} ->
    paged list_objects_v2 bucket path (Some next) pages ->
    paged list_objects_v2 bucket path token (contents :: pages).

(** a bucket served in two pages *)
Definition two_pages (prefix : string) (kw : S3.ListKwargs) : result S3.ListResponse :=
  match S3.ContinuationToken kw with
  | None =>
      Ok {| S3.Contents := Some [[("Key", VStr "a"); ("Size", VInt 1)]];
            S3.NextContinuationToken := Some "next" |}
  | Some _ =>
      Ok {| S3.Contents := Some [[("Key", VStr "b"); ("Size", VInt 2)]];
            S3.NextContinuationToken := None |}
  end.

(** a client whose every call succeeds with nothing *)
Definition quiet_client : S3System.Client :=
  {| S3System.head_object := fun _ => Ok [];
     S3System.head_bucket := fun _ => Ok [];
     S3System.list_buckets := Ok [];
     S3System.send := fun _ => Ok tt |}.


(** [sep] lies in [s] between [before] and [after] *)
Definition occurs_at (sep s before after : string) : Prop :=
  s = before +:+ sep +:+ after.

(** the occurrence of [sep] that starts first in [s] *)
Definition first_occurrence (sep s before after : string) : Prop :=
  occurs_at sep s before after
  /\ forall before' after',
       occurs_at sep s before' after' ->
       (String.length before <= String.length before')%nat.

(** The root is found in the path and [rest] follows it.  A literal root is
    found where it first occurs, at the start of the path or further on; a
    pattern is found when its split gives a second piece. *)
Definition found (r : root) (path rest : string) : Prop :=
  match r with
  | Literal s => exists before, first_occurrence s path before rest
  | Pattern split => split path !! 1%nat = Some rest
  end.



(** The listed [key] shows that there is something under the key part
    [tail] of a path: any key that is not empty when the path is a locator
    (no key part), and otherwise a key in which the key part is followed by
    more than separators. *)
Definition shows (tail key : string) : Prop :=
  if PyStr.is_empty tail then key <> ""
  else exists before after,
         occurs_at tail key before after /\ forall k, after <> PyStr.slashes k.

(** [name] is what the listing of [tail] calls the listed [key]: the key
    itself when there is no key part, and otherwise what follows the first
    occurrence of the key part and the separators after it; an empty name
    is none. *)
Definition left_under (tail key name : string) : Prop :=
  name <> ""
  /\ if PyStr.is_empty tail then name = key
     else exists before after k,
            first_occurrence tail key before after
            /\ after = PyStr.slashes k +:+ name
            /\ starts_with_slash name = false.

(** [items] are the entries that have a name under [tail], each under that
    name and with its header, in the order of the entries *)
Inductive listing_of (tail : string)
    : list (string * header) -> list (string * header) -> Prop :=
| listing_end : listing_of tail [] []
| listing_named key h name entries items :
    left_under tail key name ->
    listing_of tail entries items ->
    listing_of tail ((key, h) :: entries) ((name, h) :: items)
| listing_skipped key h entries items :
    (forall name, ~ left_under tail key name) ->
    listing_of tail entries items ->
    listing_of tail ((key, h) :: entries) items.

(** a store whose only object is [loc//]: the key [/] in the locator *)
Definition separator_key_store : System MemStore.kwargs :=
  MemStore.system [Literal "s3://"] [] [("loc//", [("Content-Length", VInt 3)])].

(** * Properties *)

(** ** Strings *)

Example split1_prefix : PyStr.split1 "s3://" "s3://bucket/key" = Ok [""; "bucket/key"].
Proof. reflexivity. Qed.
Example split1_inside : PyStr.split1 "/" "a/b/c" = Ok ["a"; "b/c"].
Proof. reflexivity. Qed.
Example split1_absent : PyStr.split1 "s3://" "bucket/key" = Ok ["bucket/key"].
Proof. reflexivity. Qed.
Example rstrip_ex : PyStr.rstrip "a//b//" = "a//b".
Proof. reflexivity. Qed.
Example strip_ex : PyStr.strip "//a/b/" = "a/b".
Proof. reflexivity. Qed.
Example char_filter_ex : PyStr.char_filter (MemStore.lower "X-Foo-Bar") = "xfoobar".
Proof. reflexivity. Qed.

Lemma lstrip_slashes (s : string) :
  exists k, s = PyStr.slashes k +:+ PyStr.lstrip s.
Proof.
  induction s as [|c s [k IH]]; [by exists 0%nat|].
  simpl. destruct (PyStr.is_slash c) eqn:Hc.
  - exists (S k). unfold PyStr.is_slash in Hc.
    apply Ascii.eqb_eq in Hc as ->. exact (f_equal (String PyStr.slash) IH).
  - by exists 0%nat.
Qed.


Lemma lstrip_no_leading_slash (s : string) :
  starts_with_slash (PyStr.lstrip s) = false.
Proof.
  induction s as [|c s IH]; [done|].
  simpl. destruct (PyStr.is_slash c) eqn:Hc; [done|]. simpl. by rewrite Hc.
Qed.

Lemma lstrip_id (s : string) :
  starts_with_slash s = false -> PyStr.lstrip s = s.
Proof. destruct s as [|c s]; [done|]. simpl. by intros ->. Qed.

(** ** More on strings *)

Lemma str_app_cons (c : ascii) (s t : string) :
  String c s +:+ t = String c (s +:+ t).
Proof. reflexivity. Qed.

Lemma str_app_nil_r (s : string) : s +:+ "" = s.
Proof. induction s as [|c s IH]; [done|]. by rewrite str_app_cons, IH. Qed.

Lemma str_app_assoc (s t u : string) : (s +:+ t) +:+ u = s +:+ (t +:+ u).
Proof. induction s as [|c s IH]; [done|]. by rewrite !str_app_cons, IH. Qed.

Lemma str_app_length (s t : string) :
  String.length (s +:+ t) = (String.length s + String.length t)%nat.
Proof. induction s as [|c s IH]; [done|]. rewrite str_app_cons. simpl. by rewrite IH. Qed.

Lemma prefix_app (sep s : string) : String.prefix sep (sep +:+ s) = true.
Proof.
  induction sep as [|c sep IH]; [by destruct s|].
  rewrite str_app_cons. simpl. by destruct (ascii_dec c c).
Qed.

Lemma prefix_split (sep s : string) :
  String.prefix sep s = true -> s = sep +:+ PyStr.drop (String.length sep) s.
Proof.
  revert s. induction sep as [|c sep IH]; intros s; [done|].
  destruct s as [|c' s]; [done|]. simpl.
  destruct (ascii_dec c c') as [<-|]; [|done].
  intros Hprefix. rewrite str_app_cons. f_equal. by apply IH.
Qed.

Lemma drop_app (sep s : string) : PyStr.drop (String.length sep) (sep +:+ s) = s.
Proof. induction sep as [|c sep IH]; [done|]. by rewrite str_app_cons. Qed.

Lemma prefix_length (sep s : string) :
  String.prefix sep s = true -> (String.length sep <= String.length s)%nat.
Proof.
  intros ->%prefix_split. rewrite str_app_length. lia.
Qed.

Lemma find_split_sound (sep s a b : string) :
  PyStr.find_split sep s = Some (a, b) -> s = a +:+ sep +:+ b.
Proof.
  revert a. induction s as [|c s IH]; intros a; cbn [PyStr.find_split].
  - destruct (String.prefix sep "") eqn:Hprefix; [|done].
    intros [= <- <-]. by apply prefix_split.
  - destruct (String.prefix sep (String c s)) eqn:Hprefix.
    + intros [= <- <-]. by apply prefix_split.
    + destruct (PyStr.find_split sep s) as [[a' b']|]; [|done].
      intros [= <- <-]. rewrite str_app_cons. f_equal. by apply IH.
Qed.

Lemma is_empty_true (s : string) : PyStr.is_empty s = true <-> s = "".
Proof. by destruct s. Qed.

Lemma is_empty_false (s : string) : PyStr.is_empty s = false <-> s <> "".
Proof. by destruct s. Qed.

Lemma has_slash_app (s t : string) :
  PyStr.has_slash (s +:+ t) = PyStr.has_slash s || PyStr.has_slash t.
Proof.
  induction s as [|c s IH]; [done|]. rewrite str_app_cons. simpl.
  by rewrite IH, orb_assoc.
Qed.

Lemma rstrip_no_slash (s : string) :
  PyStr.has_slash s = false -> PyStr.rstrip s = s.
Proof.
  induction s as [|c s IH]; [done|]. simpl.
  intros [Hc Hs]%orb_false_elim. by rewrite Hc, IH.
Qed.

Lemma rstrip_slashes (k : nat) : PyStr.rstrip (PyStr.slashes k) = "".
Proof.
  induction k as [|k IH]; [done|]. simpl. rewrite IH. done.
Qed.

Lemma rstrip_app_slash (s : string) : PyStr.rstrip (s +:+ "/") = PyStr.rstrip s.
Proof.
  induction s as [|c s IH]; [done|]. rewrite str_app_cons. simpl. by rewrite IH.
Qed.

Lemma rstrip_idempotent (s : string) : PyStr.rstrip (PyStr.rstrip s) = PyStr.rstrip s.
Proof.
  induction s as [|c s IH]; [done|]. simpl.
  destruct (PyStr.is_slash c && PyStr.is_empty (PyStr.rstrip s)) eqn:Hc; [done|].
  simpl. by rewrite IH, Hc.
Qed.

Lemma rstrip_empty_iff (s : string) :
  PyStr.rstrip s = "" <-> exists k, s = PyStr.slashes k.
Proof.
  split.
  - induction s as [|c s IH]; [by exists 0%nat|]. simpl.
    destruct (PyStr.is_slash c) eqn:Hc; simpl; [|done].
    destruct (PyStr.rstrip s) eqn:Hr; simpl; [|done].
    intros _. destruct IH as [k ->]; [done|]. exists (S k). simpl. f_equal.
    unfold PyStr.is_slash in Hc. by apply Ascii.eqb_eq in Hc.
  - intros [k ->]. apply rstrip_slashes.
Qed.

Lemma has_slash_slashes (k : nat) : PyStr.has_slash (PyStr.slashes (S k)) = true.
Proof. done. Qed.

Lemma rstrip_decompose (s : string) :
  exists k, s = PyStr.rstrip s +:+ PyStr.slashes k.
Proof.
  induction s as [|c s [k IH]]; [by exists 0%nat|]. simpl.
  destruct (PyStr.is_slash c && PyStr.is_empty (PyStr.rstrip s)) eqn:Hc.
  - apply andb_true_iff in Hc as [Hc Hempty]. apply is_empty_true in Hempty.
    rewrite Hempty in IH. exists (S k). simpl.
    unfold PyStr.is_slash in Hc. apply Ascii.eqb_eq in Hc as ->.
    exact (f_equal (String PyStr.slash) IH).
  - exists k. rewrite str_app_cons. exact (f_equal (String c) IH).
Qed.

Lemma rstrip_app_slashes (s : string) (k : nat) :
  PyStr.rstrip (s +:+ PyStr.slashes k) = PyStr.rstrip s.
Proof.
  revert s. induction k as [|k IH]; intros s; simpl.
  - by rewrite str_app_nil_r.
  - change (String PyStr.slash (PyStr.slashes k)) with ("/" +:+ PyStr.slashes k).
    by rewrite <- str_app_assoc, IH, rstrip_app_slash.
Qed.

Lemma last_app_slash (s : string) : PyStr.ends_with_slash (s +:+ "/") = Ok true.
Proof.
  unfold PyStr.ends_with_slash.
  assert (PyStr.last (s +:+ "/") = Ok PyStr.slash) as ->; [|done].
  induction s as [|c s IH]; [done|]. rewrite str_app_cons.
  cbn [PyStr.last]. destruct (s +:+ "/") eqn:Hs; [by destruct s|done].
Qed.

Lemma find_split_first (a b : string) :
  PyStr.has_slash a = false ->
  PyStr.find_split "/" (a +:+ "/" +:+ b) = Some (a, b).
Proof.
  induction a as [|c a IH]; intros Ha.
  - change ("" +:+ "/" +:+ b) with (String "/" b). by destruct b.
  - simpl in Ha. apply orb_false_elim in Ha as [Hc Ha].
    rewrite str_app_cons. cbn [PyStr.find_split String.prefix].
    destruct (ascii_dec "/" c) as [<-|_]; [done|]. by rewrite IH.
Qed.

(** *** Occurrences *)

Lemma str_app_empty (s t : string) : s +:+ t = "" -> s = "" /\ t = "".
Proof.
  destruct s as [|c s]; intros Heq.
  - split; [done|exact Heq].
  - by rewrite str_app_cons in Heq.
Qed.

Lemma str_length_empty (s : string) : String.length s = 0%nat -> s = "".
Proof. by destruct s. Qed.

(** two ways to cut the same text: the longer head ends with the start of
    the other tail *)
Lemma str_app_split (a x a' x' : string) :
  a +:+ x = a' +:+ x' ->
  (String.length a <= String.length a')%nat ->
  exists d, a' = a +:+ d /\ x = d +:+ x'.
Proof.
  revert a'. induction a as [|c a IH]; intros a' Heq Hlen.
  - by exists a'.
  - destruct a' as [|c' a']; [simpl in Hlen; lia|].
    rewrite !str_app_cons in Heq. injection Heq as <- Heq.
    destruct (IH a' Heq) as (d & -> & ->); [simpl in Hlen; lia|].
    by exists d.
Qed.

Lemma str_app_same_length (a x a' x' : string) :
  a +:+ x = a' +:+ x' ->
  String.length a = String.length a' ->
  a = a' /\ x = x'.
Proof.
  intros Heq Hlen. destruct (str_app_split a x a' x' Heq) as (d & -> & ->); [lia|].
  rewrite str_app_length in Hlen.
  assert (d = "") as -> by (apply str_length_empty; lia).
  by rewrite str_app_nil_r.
Qed.

Lemma occurs_not_at_start (sep s a b : string) :
  String.prefix sep s = false -> s = a +:+ sep +:+ b -> a <> "".
Proof.
  intros Hprefix -> ->. change ("" +:+ sep +:+ b) with (sep +:+ b) in Hprefix.
  by rewrite prefix_app in Hprefix.
Qed.

Lemma find_split_none (sep s : string) :
  PyStr.find_split sep s = None -> forall a b, s <> a +:+ sep +:+ b.
Proof.
  induction s as [|c s IH]; cbn [PyStr.find_split].
  - destruct (String.prefix sep "") eqn:Hprefix; [done|].
    intros _ a b Heq. apply (occurs_not_at_start sep "" a b Hprefix Heq).
    symmetry in Heq. by apply str_app_empty in Heq as [-> _].
  - destruct (String.prefix sep (String c s)) eqn:Hprefix; [done|].
    destruct (PyStr.find_split sep s) as [[a0 b0]|]; [done|].
    intros _ a b Heq.
    destruct a as [|c' a]; [by apply (occurs_not_at_start _ _ _ _ Hprefix Heq)|].
    rewrite str_app_cons in Heq. injection Heq as <- Heq.
    by apply (IH eq_refl a b).
Qed.

Lemma find_split_least (sep s a b : string) :
  PyStr.find_split sep s = Some (a, b) ->
  forall a' b', s = a' +:+ sep +:+ b' ->
    (String.length a <= String.length a')%nat.
Proof.
  revert a. induction s as [|c s IH]; intros a; cbn [PyStr.find_split].
  - destruct (String.prefix sep ""); [|done]. intros [= <- <-] a' b' _. simpl. lia.
  - destruct (String.prefix sep (String c s)) eqn:Hprefix.
    + intros [= <- <-] a' b' _. simpl. lia.
    + destruct (PyStr.find_split sep s) as [[a0 b0]|]; [|done].
      intros [= <- <-] a' b' Heq.
      destruct a' as [|c' a']; [by destruct (occurs_not_at_start _ _ _ _ Hprefix Heq)|].
      rewrite str_app_cons in Heq. injection Heq as <- Heq.
      specialize (IH a0 eq_refl a' b' Heq). simpl. lia.
Qed.

Lemma find_split_first_occurrence (sep s a b : string) :
  PyStr.find_split sep s = Some (a, b) <-> first_occurrence sep s a b.
Proof.
  split.
  - intros Hsplit. split; [by apply find_split_sound|].
    exact (find_split_least sep s a b Hsplit).
  - intros [Hocc Hleast].
    destruct (PyStr.find_split sep s) as [[a0 b0]|] eqn:Hsplit;
      [|by destruct (find_split_none sep s Hsplit a b)].
    pose proof (find_split_sound _ _ _ _ Hsplit) as Hocc0.
    pose proof (find_split_least _ _ _ _ Hsplit a b Hocc) as Hle.
    specialize (Hleast a0 b0 Hocc0).
    unfold occurs_at in Hocc. rewrite Hocc in Hocc0.
    destruct (str_app_same_length _ _ _ _ Hocc0) as [-> Hrest]; [lia|].
    by apply (inj (String.app sep)) in Hrest as ->.
Qed.


Lemma lstrip_slashes_app (k : nat) (s : string) :
  PyStr.lstrip (PyStr.slashes k +:+ s) = PyStr.lstrip s.
Proof. induction k as [|k IH]; [done|]. exact IH. Qed.

Lemma lstrip_empty (s : string) :
  PyStr.lstrip s = "" <-> exists k, s = PyStr.slashes k.
Proof.
  split.
  - intros Hs. destruct (lstrip_slashes s) as [k Hk]. exists k.
    by rewrite Hs, str_app_nil_r in Hk.
  - intros [k ->]. rewrite <- (str_app_nil_r (PyStr.slashes k)).
    by rewrite lstrip_slashes_app.
Qed.

Lemma slashes_suffix (k : nat) (e s : string) :
  PyStr.slashes k = e +:+ s -> exists j, s = PyStr.slashes j.
Proof.
  revert k. induction e as [|c e IH]; intros k Heq; [by exists k|].
  destruct k as [|k]; [done|]. rewrite str_app_cons in Heq. simpl in Heq.
  injection Heq as _ Heq. by apply (IH k).
Qed.

(** ** Path resolution (relpath) *)








Lemma relpath_returns (rs : list root) (path : string) :
  roots_ok rs -> exists relative, relpath rs path = Ok relative.
Proof.
  unfold relpath. induction 1 as [|r rs Hr _ [relative IH]]; [by eexists|].
  simpl. destruct r as [s|split]; simpl.
  - unfold PyStr.split1. apply is_empty_false in Hr as ->.
    destruct (PyStr.find_split _ _) as [[before after]|]; simpl; by eauto.
  - destruct (split path !! 1%nat); simpl; by eauto.
Qed.




(** ** isfile *)

Section IsFile.

Context {K : Type}.
Variable self : System K.

(** the root is never a file *)
Lemma isfile_root (path : string) (kw : option K) :
  relpath (roots self) path = Ok "" -> isfile self path kw = Ok false.
Proof. unfold isfile. by intros ->. Qed.

(** a path that ends with a separator is never a file *)
Lemma isfile_separator (path relative : string) (kw : option K) :
  relpath (roots self) path = Ok relative ->
  PyStr.ends_with_slash path = Ok true ->
  isfile self path kw = Ok false.
Proof.
  unfold isfile. intros -> Hslash. simpl.
  destruct (PyStr.is_empty relative); [done|]. by rewrite Hslash.
Qed.

(** the locator test is made on [path] as given: it answers for the
    relative form only when the path is given in that form *)
Lemma isfile_locator_as_given (path relative : string) (kw : option K) :
  relpath (roots self) path = Ok relative ->
  is_locator (roots self) path true = Ok true ->
  isfile self path kw = Ok false.
Proof.
  unfold isfile. intros -> Hloc. simpl.
  destruct (PyStr.is_empty relative); [done|].
  unfold is_locator in Hloc. simpl in Hloc.
  destruct (PyStr.ends_with_slash path) as [[]|e] eqn:Hslash; simpl.
  - done.
  - unfold is_locator. simpl. injection Hloc as ->. done.
  - unfold PyStr.ends_with_slash in Hslash.
    destruct path as [|c p]; [done|].
    destruct (PyStr.last (String c p)) eqn:Hlast; [done|].
    exfalso. clear -Hlast. revert c Hlast. induction p as [|c' p IH]; intros c; simpl.
    + done.
    + apply IH.
Qed.

(** every other path is a file when it exists *)
Lemma isfile_exists (path relative : string) (kw : option K) :
  relpath (roots self) path = Ok relative ->
  relative <> "" ->
  PyStr.ends_with_slash path = Ok false ->
  is_locator (roots self) path true = Ok false ->
  isfile self path kw = exists_ self path kw.
Proof.
  unfold isfile. intros -> Hrel -> ->. simpl.
  by destruct relative.
Qed.

End IsFile.


(** C8 at the input where it fails: the locator [bucket] named by its URL.
    Its relative form is a locator, [isdir] says so, and [isfile] answers
    with the existence check, which succeeds. *)
Theorem isfile_locator_url :
  relpath (roots bucket_store) "s3://bucket" = Ok "bucket"
  /\ is_locator (roots bucket_store) "bucket" true = Ok true
  /\ exists_ bucket_store "s3://bucket" None = Ok true
  /\ isfile bucket_store "s3://bucket" None = Ok true
  /\ isdir bucket_store "s3://bucket" None true = Ok true.
Proof. repeat split; vm_compute; reflexivity. Qed.

(** ** list_objects on a path without entries *)

(** [list_objects] adds no check of its own: when the storage lists nothing
    for the path, the listing is empty and ends normally. *)
Lemma list_objects_nothing_listed {K : Type} (self : System K)
    (path locator tail : string) (kw : K) (first_level : bool) (max : option nat) :
  path <> "" ->
  split_locator (roots self) path = Ok (locator, tail) ->
  get_client_kwargs self locator = Ok kw ->
  _list_objects self kw tail max = Return ->
  list_objects self path true first_level max = Return.
Proof.
  intros Hpath Hsplit Hkw Hnone. unfold list_objects. simpl.
  destruct path; [done|]. simpl. rewrite Hsplit. simpl. rewrite Hkw. simpl.
  by rewrite Hnone.
Qed.


(** C7 at the input where it fails: a directory that does not exist, in a
    locator that holds [dir/file.txt] only.  The listing of the system ends
    normally without an entry, and the S3 listing raises [KeyError] on the
    missing ['Contents']; neither raises [ObjectNotFoundError]. *)
Theorem list_objects_not_found_missing :
  list_objects (MemStore.system [Literal "s3://"] [] [("dir/file.txt", [])])
    "dir/nonexist/" false false None = Return
  /\ S3._list_objects empty_listing 1
       {| S3.Bucket := "dir"; S3.ContinuationToken := None |} "nonexist/"
     = Throw (KeyError "Contents").
Proof. split; vm_compute; reflexivity. Qed.

(** ** Generators *)

Lemma gen_prepend_finish {A : Type} (g : gen A) :
  g = Gen.prepend (Gen.items g) (Gen.finish (Gen.ending g)).
Proof. induction g as [|a g IH|e]; simpl; [done| |done]. by rewrite <- IH. Qed.

Lemma gen_items_prepend {A : Type} (l : list A) (g : gen A) :
  Gen.items (Gen.prepend l g) = l ++ Gen.items g.
Proof. induction l as [|a l IH]; simpl; [done|]. by rewrite IH. Qed.

Lemma gen_ending_prepend {A : Type} (l : list A) (g : gen A) :
  Gen.ending (Gen.prepend l g) = Gen.ending g.
Proof. induction l as [|a l IH]; simpl; done. Qed.

Lemma gen_prepend_app {A : Type} (l1 l2 : list A) (g : gen A) :
  Gen.prepend (l1 ++ l2) g = Gen.prepend l1 (Gen.prepend l2 g).
Proof. induction l1 as [|a l1 IH]; simpl; [done|]. by rewrite IH. Qed.

Lemma gen_items_map {A B : Type} (f : A -> B) (g : gen A) :
  Gen.items (Gen.map f g) = f <$> Gen.items g.
Proof. induction g as [|a g IH|e]; simpl; [done| |done]. by rewrite IH. Qed.

Lemma gen_ending_map {A B : Type} (f : A -> B) (g : gen A) :
  Gen.ending (Gen.map f g) = Gen.ending g.
Proof. induction g as [|a g IH|e]; simpl; done. Qed.

(** what [try_permission] does with the end of the guarded generator *)
Lemma gen_try_permission_unfold {A : Type} (g k : gen A) :
  Gen.try_permission g k =
    Gen.prepend (Gen.items g)
      match Gen.ending g with
      | None => k
      | Some e => if is_permission e then k else Throw e
      end.
Proof. induction g as [|a g IH|e]; simpl; [done| |done]. by rewrite IH. Qed.

(** ** Root listing *)

Section RootListing.

Context {K : Type}.
Variable self : System K.
Variable max_request_entries : option nat.

Lemma list_root_tree_step (loc_path : string) (loc_header : header)
    (locators : gen (string * header)) :
  list_root_tree self (Yield (loc_path, loc_header) locators) max_request_entries =
    Yield (PyStr.rstrip loc_path, loc_header)
      (Gen.prepend (in_locator (PyStr.rstrip loc_path)
                      <$> Gen.items (locator_content self max_request_entries (PyStr.rstrip loc_path)))
         match Gen.ending (locator_content self max_request_entries (PyStr.rstrip loc_path)) with
         | None => list_root_tree self locators max_request_entries
         | Some e =>
             if is_permission e
             then list_root_tree self locators max_request_entries
             else Throw e
         end).
Proof.
  simpl. f_equal. rewrite gen_try_permission_unfold.
  rewrite gen_items_map, gen_ending_map. f_equal.
  unfold locator_content, in_locator.
  apply list_fmap_ext. by intros i [obj_path obj_header] _.
Qed.

(** the locators enumerated without a propagated error are passed over *)
Lemma list_root_tree_prepend (before : list (string * header))
    (locators : gen (string * header)) :
  Gen.ending (list_root_tree self (Gen.of_list before) max_request_entries) = None ->
  list_root_tree self (Gen.prepend before locators) max_request_entries =
    Gen.prepend
      (Gen.items (list_root_tree self (Gen.of_list before) max_request_entries))
      (list_root_tree self locators max_request_entries).
Proof.
  induction before as [|[loc_path loc_header] before IH]; [done|].
  cbn [Gen.of_list Gen.prepend]. rewrite !list_root_tree_step.
  cbn [Gen.ending Gen.items Gen.prepend]. rewrite gen_ending_prepend.
  rewrite gen_items_prepend, gen_prepend_app. intros Hend. f_equal. f_equal.
  destruct (Gen.ending (locator_content self max_request_entries (PyStr.rstrip loc_path))) as [e|].
  - destruct (is_permission e); [by apply IH|done].
  - by apply IH.
Qed.

(** C6.  In a root listing of the full tree, take a locator that the
    enumeration reaches and whose content ends with an exception.  The
    locator itself is yielded, then the objects listed before the exception.
    After an [ObjectPermissionError] the listing goes on with the locators
    that follow; any other exception ends the listing and reaches the
    caller. *)
Theorem root_listing_permission_error (path : string)
    (before : list (string * header)) (loc_path : string) (loc_header : header)
    (after : gen (string * header)) (e : exn) :
  relpath (roots self) path = Ok "" ->
  _list_locators self = Gen.prepend before (Yield (loc_path, loc_header) after) ->
  Gen.ending (list_root_tree self (Gen.of_list before) max_request_entries) = None ->
  Gen.ending (locator_content self max_request_entries (PyStr.rstrip loc_path))
    = Some e ->
  let listing := list_objects self path false false max_request_entries in
  let reached :=
    Gen.items (list_root_tree self (Gen.of_list before) max_request_entries)
    ++ (PyStr.rstrip loc_path, loc_header)
    :: (in_locator (PyStr.rstrip loc_path)
          <$> Gen.items (locator_content self max_request_entries
                           (PyStr.rstrip loc_path))) in
  (is_permission e = true ->
     listing = Gen.prepend reached
                 (list_root_tree self after max_request_entries))
  /\ (is_permission e = false ->
       listing = Gen.prepend reached (Throw e)
       /\ Gen.ending listing = Some e).
Proof.
  intros Hroot Hlocators Hbefore Hcontent listing reached.
  assert (listing = Gen.prepend reached
            (if is_permission e
             then list_root_tree self after max_request_entries
             else Throw e)) as Hlisting.
  { unfold listing, list_objects, reached. rewrite Hroot. simpl.
    rewrite Hlocators, list_root_tree_prepend by done.
    rewrite list_root_tree_step, Hcontent, gen_prepend_app. done. }
  split; intros He; rewrite He in Hlisting; [done|].
  split; [done|]. by rewrite Hlisting, gen_ending_prepend.
Qed.

End RootListing.

Lemma root_listing_permission_error_witness :
  list_objects guarded_store "s3://" false false None =
    Gen.of_list [("open", []); ("open/a", []); ("closed", []); ("closed/x", []);
                 ("last", []); ("last/z", [])].
Proof.
  pose proof (root_listing_permission_error guarded_store None "s3://"
                [("open/", [])] "closed" [] (Gen.of_list [("last", [])])
                (ObjectPermissionError "closed")
                eq_refl eq_refl eq_refl eq_refl) as [Hswallowed _].
  rewrite (Hswallowed eq_refl). reflexivity.
Defined.

(** ** Range reads of the raw S3 stream *)

Lemma handle_client_error_raise {A : Type} (e : exn) :
  S3._handle_client_error (A := A) (Raise e) = Raise (translated e).
Proof.
  destruct e; try reflexivity. simpl.
  by destruct (S3._ERROR_CODES code).
Qed.


Section ReadRange.

Context {R K : Type}.
Variable get_object : R -> K -> result (result S3.bytes).
Variable _http_range : Z -> Z -> R.
Variable _client_kwargs : K.


End ReadRange.


(** ** Multipart upload of the buffered S3 stream *)

Section Multipart.

Variable upload_part : S3.bytes -> Z -> string -> result string.
Variable id : string.

Lemma flush_created (create_multipart_upload : result string)
    (buffer : S3.bytes) (s : S3.stream) :
  S3.UploadId s = Some id ->
  S3._flush create_multipart_upload upload_part buffer s =
    (Ok tt,
     {| S3._seek := S3._seek s; S3.UploadId := Some id;
        S3._write_futures :=
          S3._write_futures s ++ [pending upload_part id (S3._seek s, buffer)];
        S3.log := S3.log s ++ [S3.SubmitUploadPart (S3._seek s) buffer id] |}).
Proof. unfold S3._flush. intros Hid. rewrite Hid. simpl. by rewrite Hid. Qed.

Lemma dispatch_created (create_multipart_upload : result string)
    (buffers : list S3.bytes) (first : Z) (s : S3.stream) :
  S3.UploadId s = Some id ->
  exists s',
    S3.dispatch create_multipart_upload upload_part first buffers s = (Ok tt, s')
    /\ S3.UploadId s' = Some id
    /\ S3._write_futures s' =
         S3._write_futures s ++ (pending upload_part id <$> numbered first buffers)
    /\ S3.log s' = S3.log s ++ (submitted id <$> numbered first buffers).
Proof.
  revert first s. induction buffers as [|buffer buffers IH]; intros first s Hid.
  - exists s. simpl. by rewrite !app_nil_r.
  - simpl. rewrite flush_created by done. simpl.
    edestruct (IH (first + 1)%Z) as (s' & -> & Hid' & Hfutures & Hlog);
      [|exists s'; split_and!; [done|done|..]].
    + done.
    + rewrite Hfutures. simpl. by rewrite <- app_assoc.
    + rewrite Hlog. simpl. by rewrite <- app_assoc.
Qed.

Lemma dispatch_opened (create_multipart_upload : result string)
    (buffers : list S3.bytes) :
  create_multipart_upload = Ok id ->
  buffers <> [] ->
  exists s,
    S3.dispatch create_multipart_upload upload_part 1 buffers S3.opened = (Ok tt, s)
    /\ S3.UploadId s = Some id
    /\ S3._write_futures s = pending upload_part id <$> numbered 1 buffers
    /\ S3.log s = S3.CreateMultipartUpload :: (submitted id <$> numbered 1 buffers).
Proof.
  intros Hcreate Hbuffers. destruct buffers as [|buffer buffers]; [done|].
  simpl. unfold S3._flush. simpl. rewrite Hcreate. simpl.
  edestruct (dispatch_created (Ok id) buffers (1 + 1)) as (s' & -> & Hid' & Hfutures & Hlog);
    [|exists s'; split_and!; [done|done|..]].
  - done.
  - by rewrite Hfutures.
  - by rewrite Hlog.
Qed.

Lemma wait_parts_all (parts : list (Z * S3.bytes)) (etags : list string) :
  outcome upload_part id <$> parts = Ok <$> etags ->
  exists waited,
    S3.wait_parts (pending upload_part id <$> parts)
      = (Ok tt, waited, S3.FutureResult <$> parts.*1)
    /\ S3.parts_argument waited = zip parts.*1 etags.
Proof.
  revert etags. induction parts as [|nb parts IH]; intros etags Hout.
  - exists []. by destruct etags.
  - destruct etags as [|etag etags]; [done|].
    injection Hout as Hnb Hout.
    destruct (IH etags Hout) as (waited & Hwait & Hargument).
    eexists. csimpl in *. rewrite Hnb, Hwait. split; [done|].
    unfold S3.parts_argument in *. csimpl. by rewrite Hargument.
Qed.

Lemma wait_parts_failed (before after : list (Z * S3.bytes))
    (failed : Z * S3.bytes) (etags : list string) (e : exn) :
  outcome upload_part id <$> before = Ok <$> etags ->
  outcome upload_part id failed = Raise e ->
  exists left_,
    S3.wait_parts (pending upload_part id <$> (before ++ failed :: after))
      = (Raise e, left_, S3.FutureResult <$> (before.*1 ++ [failed.1])).
Proof.
  revert etags. induction before as [|nb before IH]; intros etags Hout Hfailed.
  - eexists. csimpl in *. by rewrite Hfailed.
  - destruct etags as [|etag etags]; [done|].
    injection Hout as Hnb Hout.
    destruct (IH etags Hout Hfailed) as (left_ & Hwait).
    eexists. csimpl in *. by rewrite Hnb, Hwait.
Qed.

Lemma numbered_bound (buffers : list S3.bytes) (first : Z) :
  Forall (fun n => (first <= n)%Z) (numbered first buffers).*1.
Proof.
  revert first. induction buffers as [|buffer buffers IH]; intros first; csimpl.
  - constructor.
  - constructor; [lia|]. eapply Forall_impl; [apply (IH (first + 1)%Z)|].
    simpl. lia.
Qed.

Lemma numbered_sorted (buffers : list S3.bytes) (first : Z) :
  StronglySorted Z.lt (numbered first buffers).*1.
Proof.
  revert first. induction buffers as [|buffer buffers IH]; intros first; csimpl.
  - constructor.
  - constructor; [apply IH|]. eapply Forall_impl; [apply (numbered_bound _ (first + 1)%Z)|].
    simpl. lia.
Qed.

(** either every part is uploaded or there is a first one that is not *)
Lemma first_failure (parts : list (Z * S3.bytes)) :
  (exists etags, outcome upload_part id <$> parts = Ok <$> etags)
  \/ (exists before failed after etags e,
        parts = before ++ failed :: after
        /\ outcome upload_part id <$> before = Ok <$> etags
        /\ outcome upload_part id failed = Raise e).
Proof.
  induction parts as [|nb parts IH].
  - left. by exists [].
  - destruct (outcome upload_part id nb) as [etag|e] eqn:Hnb.
    + destruct IH as [[etags Hall]|(before & failed & after & etags & e & -> & Hok & Hfail)].
      * left. exists (etag :: etags). csimpl. by rewrite Hnb, Hall.
      * right. exists (nb :: before), failed, after, (etag :: etags), e.
        csimpl. by rewrite Hnb, Hok.
    + right. by exists [], nb, parts, [], e.
Qed.

(** C1 (as amended).  A stream that has dispatched the buffers as parts
    1..n is closed.  The parts are waited for one after the other in the
    order of their numbers.  When every upload succeeds, the completion call
    follows with the parts in increasing number.  When an upload fails,
    the exception of the first such part is raised as soon as that part has
    been waited for: the parts after it are not waited for, and there is no
    completion call.  The completion call is made if and only if every
    upload succeeds. *)
Theorem close_writable_parts (create_multipart_upload : result string)
    (buffers : list S3.bytes) :
  create_multipart_upload = Ok id ->
  buffers <> [] ->
  let parts := numbered 1 buffers in
  let closed := S3.write_and_close create_multipart_upload upload_part buffers in
  let dispatched := S3.CreateMultipartUpload :: (submitted id <$> parts) in
  (forall etags,
     outcome upload_part id <$> parts = Ok <$> etags ->
     closed.1 = Ok tt
     /\ S3.log closed.2 =
          dispatched ++ (S3.FutureResult <$> parts.*1)
          ++ [S3.CompleteMultipartUpload (zip parts.*1 etags) id]
     /\ StronglySorted Z.lt (zip parts.*1 etags).*1)
  /\ (forall before failed after etags e,
        parts = before ++ failed :: after ->
        outcome upload_part id <$> before = Ok <$> etags ->
        outcome upload_part id failed = Raise e ->
        closed.1 = Raise e
        /\ S3.log closed.2 =
             dispatched ++ (S3.FutureResult <$> (before.*1 ++ [failed.1]))
        /\ (forall nb, nb ∈ after -> S3.FutureResult nb.1 ∉ S3.log closed.2)
        /\ ~ completed closed.2)
  /\ (completed closed.2 <->
        Forall (fun nb => exists etag, outcome upload_part id nb = Ok etag) parts).
Proof.
  intros Hcreate Hbuffers parts closed dispatched.
  destruct (dispatch_opened create_multipart_upload buffers Hcreate Hbuffers)
    as (s & Hdispatch & Hid & Hfutures & Hlog).
  assert (forall etags,
     outcome upload_part id <$> parts = Ok <$> etags ->
     closed.1 = Ok tt
     /\ S3.log closed.2 =
          dispatched ++ (S3.FutureResult <$> parts.*1)
          ++ [S3.CompleteMultipartUpload (zip parts.*1 etags) id]
     /\ StronglySorted Z.lt (zip parts.*1 etags).*1) as Hall.
  { intros etags Hok.
    destruct (wait_parts_all parts etags Hok) as (waited & Hwait & Hargument).
    unfold closed, S3.write_and_close, S3._close_writable.
    rewrite Hdispatch, Hfutures. fold parts. rewrite Hwait. simpl.
    rewrite Hid, Hlog, Hargument. fold parts. split_and!; [done| |].
    - by rewrite <- app_assoc.
    - rewrite fst_zip; [apply numbered_sorted|].
      apply (f_equal length) in Hok. rewrite !length_fmap in Hok.
      rewrite length_fmap. lia. }
  assert (forall before failed after etags e,
        parts = before ++ failed :: after ->
        outcome upload_part id <$> before = Ok <$> etags ->
        outcome upload_part id failed = Raise e ->
        closed.1 = Raise e
        /\ S3.log closed.2 =
             dispatched ++ (S3.FutureResult <$> (before.*1 ++ [failed.1]))
        /\ (forall nb, nb ∈ after -> S3.FutureResult nb.1 ∉ S3.log closed.2)
        /\ ~ completed closed.2) as Hfail.
  { intros before failed after etags e Hparts Hok Hfailed.
    destruct (wait_parts_failed before after failed etags e Hok Hfailed)
      as (left_ & Hwait).
    assert (closed.1 = Raise e
            /\ S3.log closed.2 =
                 dispatched ++ (S3.FutureResult <$> (before.*1 ++ [failed.1])))
      as [Hraise Hclosed].
    { unfold closed, S3.write_and_close, S3._close_writable.
      rewrite Hdispatch, Hfutures. fold parts. rewrite Hparts, Hwait. simpl.
      by rewrite Hlog. }
    split_and!; [done|done| |].
    - intros nb Hnb. rewrite Hclosed. unfold dispatched.
      rewrite elem_of_app, elem_of_cons, !list_elem_of_fmap.
      intros [[?|(? & ? & _)]|(n & [= Hn] & Hin)]; [done|done|]. subst n.
      pose proof (numbered_sorted buffers 1) as Hsorted. fold parts in Hsorted.
      rewrite Hparts, fmap_app, fmap_cons, cons_middle, app_assoc in Hsorted.
      eapply (StronglySorted_app_1_elem_of _ _ _ nb.1 nb.1) in Hsorted;
        [lia|exact Hin|].
      apply list_elem_of_fmap. by exists nb.
    - intros (ps & i & Hin). rewrite Hclosed in Hin. unfold dispatched in Hin.
        rewrite elem_of_app, elem_of_cons, !list_elem_of_fmap in Hin.
      destruct Hin as [[?|(? & ? & _)]|(? & ? & _)]; done. }
  split_and!; [exact Hall|exact Hfail|].
  destruct (first_failure parts)
    as [[etags Hok]|(before & failed & after & etags & e & Hparts & Hok & Hfailed)].
  - destruct (Hall etags Hok) as (_ & Hclosed & _). split.
    + intros _. apply Forall_forall. intros nb Hnb.
      apply (list_elem_of_fmap_2 (outcome upload_part id)) in Hnb.
      rewrite Hok in Hnb. apply list_elem_of_fmap in Hnb as (etag & -> & _).
      by exists etag.
    + intros _. exists (zip parts.*1 etags), id. rewrite Hclosed.
      rewrite !elem_of_app. right. right. by apply list_elem_of_singleton.
  - destruct (Hfail before failed after etags e Hparts Hok Hfailed)
      as (_ & _ & _ & Hnot). split; [done|].
    intros Hevery. rewrite Hparts in Hevery.
    apply Forall_app in Hevery as [_ Hevery].
    apply Forall_cons in Hevery as [[etag Hetag] _]. congruence.
Qed.

End Multipart.

Lemma close_writable_parts_witness :
  (S3.write_and_close (Ok "id") second_part_fails [[]; []; []]).1
    = Raise (OtherError "part 2 refused")
  /\ ~ completed (S3.write_and_close (Ok "id") second_part_fails [[]; []; []]).2.
Proof.
  pose proof (close_writable_parts second_part_fails "id" (Ok "id") [[]; []; []]
                eq_refl ltac:(discriminate)) as (_ & Hfail & _).
  destruct (Hfail [(1%Z, [])] (2%Z, []) [(3%Z, [])] ["etag"]
              (OtherError "part 2 refused") eq_refl eq_refl eq_refl)
    as (Hraise & _ & _ & Hnot).
  split; [exact Hraise|exact Hnot].
Defined.

(** C1 as stated does not hold: with three parts dispatched of which the
    second fails, the close raises without having waited for the third. *)
Lemma close_does_not_wait_for_later_parts :
  ~ (forall create_multipart_upload upload_part buffers id e,
       create_multipart_upload = Ok id ->
       (S3.write_and_close create_multipart_upload upload_part buffers).1 = Raise e ->
       forall nb, nb ∈ numbered 1 buffers ->
         S3.FutureResult nb.1
           ∈ S3.log (S3.write_and_close create_multipart_upload upload_part buffers).2).
Proof.
  intros H.
  specialize (H (Ok "id") second_part_fails [[]; []; []] "id"
                (OtherError "part 2 refused") eq_refl eq_refl (3%Z, [])).
  assert ((3%Z, []) ∈ numbered 1 [[]; []; []]) as Hthird
    by (simpl; do 2 right; left).
  specialize (H Hthird). vm_compute in H.
  repeat (apply elem_of_cons in H as [H|H]; [discriminate H|]).
  by apply elem_of_nil in H.
Qed.

(** ** First-level listing *)

Lemma find_split_slash (s : string) :
  match PyStr.find_split "/" s with
  | Some (d, rest) =>
      s = d +:+ "/" +:+ rest /\ PyStr.has_slash d = false /\ PyStr.has_slash s = true
  | None => PyStr.has_slash s = false
  end.
Proof.
  induction s as [|c s IH]; [done|].
  cbn [PyStr.find_split String.prefix PyStr.has_slash].
  destruct (ascii_dec "/" c) as [<-|Hc].
  - by destruct s.
  - assert (PyStr.is_slash c = false) as ->.
    { unfold PyStr.is_slash, PyStr.slash. apply Ascii.eqb_neq. congruence. }
    destruct (PyStr.find_split "/" s) as [[d rest]|]; [|done].
    destruct IH as (-> & Hd & Hs). cbn [PyStr.has_slash].
    assert (PyStr.is_slash c = false) as ->; [|done].
    unfold PyStr.is_slash, PyStr.slash. apply Ascii.eqb_neq. congruence.
Qed.

Lemma first_level_entry_cases (r : string) (h : header) :
  (PyStr.has_slash (PyStr.strip r) = true
   /\ exists d rest, PyStr.strip r = d +:+ "/" +:+ rest
        /\ PyStr.has_slash d = false
        /\ first_level_entry r h = (d +:+ "/", []))
  \/ (PyStr.has_slash (PyStr.strip r) = false /\ first_level_entry r h = (r, h)).
Proof.
  unfold first_level_entry, PyStr.split1. simpl.
  pose proof (find_split_slash (PyStr.strip r)) as Hsplit.
  destruct (PyStr.find_split "/" (PyStr.strip r)) as [[d rest]|].
  - left. destruct Hsplit as (? & ? & ?). split; [done|]. by exists d, rest.
  - right. done.
Qed.

Lemma strip_prefix_cases (path obj_path : string) :
  (exists r, strip_prefix path obj_path = Ok r)
  \/ strip_prefix path obj_path = Raise IndexError.
Proof.
  unfold strip_prefix, PyStr.split1.
  destruct (PyStr.is_empty path); [by eauto|]. simpl.
  destruct (PyStr.find_split path obj_path) as [[a b]|]; simpl; by eauto.
Qed.

(** one round of the loop of the first-level listing *)
Lemma list_sub_first_level_step (path : string) (seen : gset string)
    (obj_path : string) (h : header) (entries : gen (string * header)) :
  list_sub path true seen (Yield (obj_path, h) entries) =
    match remainder path obj_path with
    | None => list_sub path true seen entries
    | Some r =>
        if decide ((first_level_entry r h).1 ∈ seen)
        then list_sub path true seen entries
        else Yield (first_level_entry r h)
               (list_sub path true ({[(first_level_entry r h).1]} ∪ seen) entries)
    end.
Proof.
  unfold remainder. cbn [list_sub].
  destruct (strip_prefix_cases path obj_path) as [[r ->]| ->]; [|done].
  destruct (PyStr.is_empty r); [done|].
  by destruct (first_level_entry r h) as [name hd].
Qed.

Lemma candidates_yield (path obj_path : string) (h : header)
    (entries : gen (string * header)) :
  candidates path (Gen.items (Yield (obj_path, h) entries)) =
    match remainder path obj_path with
    | Some r => first_level_entry r h :: candidates path (Gen.items entries)
    | None => candidates path (Gen.items entries)
    end.
Proof.
  unfold candidates. cbn [Gen.items]. csimpl.
  by destruct (remainder path obj_path).
Qed.

(** rewrite one round of the loop and split on what it does *)
Ltac first_level_round :=
  rewrite list_sub_first_level_step, ?candidates_yield;
  (destruct (remainder _ _) as [?r|]; [case_decide|]).

Section FirstLevel.

Variable path : string.

Lemma first_level_yielded (entries : gen (string * header)) (seen : gset string)
    (name : string) (hd : header) :
  (name, hd) ∈ Gen.items (list_sub path true seen entries) ->
  (name ∉ seen) /\ (name, hd) ∈ candidates path (Gen.items entries).
Proof.
  revert seen. induction entries as [|[obj_path h] entries IH|e]; intros seen.
  - by intros ?%elem_of_nil.
  - first_level_round.
    + intros [? ?]%IH. split; [done|]. by right.
    + cbn [Gen.items]. intros [Heq|Hin]%elem_of_cons.
      * split; [|rewrite Heq; by left].
        by assert (name = (first_level_entry r h).1) as -> by (by rewrite <- Heq).
      * destruct (IH _ Hin) as [Hnot ?]. split; [|by right].
        intros ?. apply Hnot, elem_of_union. by right.
    + apply IH.
  - by intros ?%elem_of_nil.
Qed.

Lemma first_level_once (entries : gen (string * header)) (seen : gset string) :
  NoDup (Gen.items (list_sub path true seen entries)).*1.
Proof.
  revert seen. induction entries as [|[obj_path h] entries IH|e]; intros seen.
  - constructor.
  - first_level_round; [apply IH| |apply IH].
    cbn [Gen.items]. csimpl. constructor; [|apply IH].
    intros ([name hd] & Hname & [Hnot _]%first_level_yielded)%list_elem_of_fmap.
    simpl in Hname. set_solver.
  - constructor.
Qed.

Lemma first_level_all_names (entries : gen (string * header)) (seen : gset string)
    (c : string * header) :
  c ∈ candidates path (Gen.items entries) ->
  c.1 ∈ seen \/ c.1 ∈ (Gen.items (list_sub path true seen entries)).*1.
Proof.
  revert seen. induction entries as [|[obj_path h] entries IH|e]; intros seen.
  - by intros ?%elem_of_nil.
  - first_level_round.
    + intros [->|Hin]%elem_of_cons; [by left|]. by apply IH.
    + cbn [Gen.items]. csimpl. intros [->|Hin]%elem_of_cons.
      * right. by left.
      * destruct (IH ({[(first_level_entry r h).1]} ∪ seen) Hin) as [Hseen|Hout].
        -- apply elem_of_union in Hseen as [->%elem_of_singleton|?];
             [right; by left|by left].
        -- right. by right.
    + apply IH.
  - by intros ?%elem_of_nil.
Qed.

Lemma first_level_in_order (entries : gen (string * header)) (seen : gset string) :
  sublist (Gen.items (list_sub path true seen entries))
    (candidates path (Gen.items entries)).
Proof.
  revert seen. induction entries as [|[obj_path h] entries IH|e]; intros seen.
  - constructor.
  - first_level_round.
    + apply sublist_cons, IH.
    + cbn [Gen.items]. apply sublist_skip, IH.
    + apply IH.
  - constructor.
Qed.

Lemma first_level_first_wins (entries : gen (string * header)) (seen : gset string)
    (name : string) (hd : header) :
  (name, hd) ∈ Gen.items (list_sub path true seen entries) ->
  exists earlier later,
    candidates path (Gen.items entries) = earlier ++ (name, hd) :: later
    /\ name ∉ earlier.*1.
Proof.
  revert seen. induction entries as [|[obj_path h] entries IH|e]; intros seen.
  - by intros ?%elem_of_nil.
  - first_level_round.
    + intros Hin. destruct (first_level_yielded _ _ _ _ Hin) as [Hnot _].
      destruct (IH _ Hin) as (earlier & later & -> & Hearlier).
      exists (first_level_entry r h :: earlier), later. split; [done|].
      csimpl. apply not_elem_of_cons. split; [|done]. by intros ->.
    + cbn [Gen.items]. intros [Heq|Hin]%elem_of_cons.
      * exists [], (candidates path (Gen.items entries)). rewrite <- Heq.
        split; [done|]. apply not_elem_of_nil.
      * destruct (first_level_yielded _ _ _ _ Hin) as [Hnot _].
        destruct (IH _ Hin) as (earlier & later & -> & Hearlier).
        exists (first_level_entry r h :: earlier), later. split; [done|].
        csimpl. apply not_elem_of_cons. split; [set_solver|done].
    + apply IH.
  - by intros ?%elem_of_nil.
Qed.

Lemma first_level_ending (entries : gen (string * header)) (seen : gset string) :
  Gen.ending (list_sub path true seen entries) = Gen.ending entries.
Proof.
  revert seen. induction entries as [|[obj_path h] entries IH|e]; intros seen.
  - done.
  - first_level_round; cbn [Gen.ending]; apply IH.
  - done.
Qed.

Lemma candidates_from_entry (entries : list (string * header)) (c : string * header) :
  c ∈ candidates path entries ->
  exists obj_path h r,
    (obj_path, h) ∈ entries /\ remainder path obj_path = Some r
    /\ c = first_level_entry r h.
Proof.
  unfold candidates. intros ([obj_path h] & Hin & Hc)%list_elem_of_omap.
  simpl in Hc. destruct (remainder path obj_path) as [r|] eqn:Hr; [|done].
  injection Hc as <-. by exists obj_path, h, r.
Qed.

End FirstLevel.

(** C5 (as amended).  In the first-level listing of a sub-path, every item
    yielded is the first-level form of a listed entry: the first segment and a
    separator with an empty header when the remainder of the key, stripped of
    its surrounding separators, has more than one segment, and the remainder
    with the header of the entry otherwise.  No name is yielded twice,
    whether it was made up or not; the name of every entry is yielded; the
    items come in the order of the entries, each name with the header of the
    first entry that gives it.  The listing ends as the listing of the
    storage does.  For the keys [a/x], [a/y], [b] the items are [a/] with an
    empty header and [b] with its own. *)
Theorem first_level_listing {K : Type} (self : System K)
    (path locator tail : string) (kw : K) (max_request_entries : option nat) :
  path <> "" ->
  split_locator (roots self) path = Ok (locator, tail) ->
  get_client_kwargs self locator = Ok kw ->
  let entries := _list_objects self kw tail max_request_entries in
  let listing := list_objects self path true true max_request_entries in
  let found := candidates tail (Gen.items entries) in
  (forall name hd,
     (name, hd) ∈ Gen.items listing ->
     exists obj_path h r,
       (obj_path, h) ∈ Gen.items entries
       /\ remainder tail obj_path = Some r
       /\ ((PyStr.has_slash (PyStr.strip r) = true
            /\ exists d rest, PyStr.strip r = d +:+ "/" +:+ rest
                 /\ PyStr.has_slash d = false
                 /\ name = d +:+ "/" /\ hd = [])
           \/ (PyStr.has_slash (PyStr.strip r) = false /\ name = r /\ hd = h)))
  /\ NoDup (Gen.items listing).*1
  /\ (forall obj_path h r,
        (obj_path, h) ∈ Gen.items entries ->
        remainder tail obj_path = Some r ->
        (first_level_entry r h).1 ∈ (Gen.items listing).*1)
  /\ sublist (Gen.items listing) found
  /\ (forall name hd,
        (name, hd) ∈ Gen.items listing ->
        exists earlier later,
          found = earlier ++ (name, hd) :: later /\ name ∉ earlier.*1)
  /\ Gen.ending listing = Gen.ending entries
  /\ Gen.items (list_objects abc_store "loc" true true None)
     = [("a/", []); ("b", [("Content-Length", VInt 3)])].
Proof.
  intros Hpath Hsplit Hkw entries listing found.
  assert (listing = list_sub tail true ∅ entries) as ->.
  { unfold listing, list_objects. simpl. destruct path; [done|].
    simpl. rewrite Hsplit. simpl. by rewrite Hkw. }
  split_and!.
  - intros name hd [_ Hin]%first_level_yielded.
    apply candidates_from_entry in Hin as (obj_path & h & r & Hin & Hr & Hc).
    exists obj_path, h, r. split_and!; [done|done|].
    destruct (first_level_entry_cases r h)
      as [(Hmore & d & rest & Hstrip & Hd & Hentry)|[Hone Hentry]];
      rewrite Hentry in Hc; injection Hc as -> ->.
    + left. split; [done|]. by exists d, rest.
    + by right.
  - apply first_level_once.
  - intros obj_path h r Hin Hr.
    destruct (first_level_all_names tail entries ∅ (first_level_entry r h))
      as [Hseen|Hout]; [|by apply not_elem_of_empty in Hseen|done].
    unfold candidates. apply list_elem_of_omap. exists (obj_path, h).
    split; [done|]. simpl. by rewrite Hr.
  - apply first_level_in_order.
  - apply first_level_first_wins.
  - apply first_level_ending.
  - vm_compute. reflexivity.
Qed.

Lemma first_level_listing_witness :
  NoDup (Gen.items (list_objects abc_store "loc" true true None)).*1.
Proof.
  exact (proj1 (proj2 (first_level_listing abc_store "loc" "loc" "" ("loc", "") None
                         ltac:(discriminate) eq_refl eq_refl))).
Defined.

(** C5 as stated does not hold: an entry with several segments is not
    yielded as a directory with an empty header when its name was yielded
    before; here the directory object [a/] comes first and [a/] keeps the
    header of that object. *)
Lemma first_level_directory_keeps_header :
  ~ (forall (self : System MemStore.kwargs) path locator tail kw max_request_entries
       obj_path h r d rest,
       path <> "" ->
       split_locator (roots self) path = Ok (locator, tail) ->
       get_client_kwargs self locator = Ok kw ->
       (obj_path, h) ∈ Gen.items (_list_objects self kw tail max_request_entries) ->
       remainder tail obj_path = Some r ->
       PyStr.strip r = d +:+ "/" +:+ rest ->
       PyStr.has_slash d = false ->
       (d +:+ "/", []) ∈ Gen.items (list_objects self path true true max_request_entries)).
Proof.
  intros H.
  specialize (H marker_store "loc" "loc" "" ("loc", "") None
                "a/x" [("Content-Length", VInt 1)] "a/x" "a" "x"
                ltac:(discriminate) eq_refl eq_refl).
  assert (("a/", []) ∈ Gen.items (list_objects marker_store "loc" true true None))
    as Hbad.
  { apply H; [|reflexivity..]. vm_compute. right. left. }
  vm_compute in Hbad.
  apply list_elem_of_singleton in Hbad. discriminate Hbad.
Qed.

(** ** isdir *)

Lemma list_sub_full_step (path : string) (seen : gset string)
    (obj_path : string) (h : header) (entries : gen (string * header)) :
  list_sub path false seen (Yield (obj_path, h) entries) =
    match remainder path obj_path with
    | None => list_sub path false seen entries
    | Some r => Yield (r, h) (list_sub path false seen entries)
    end.
Proof.
  unfold remainder. cbn [list_sub].
  destruct (strip_prefix_cases path obj_path) as [[r ->]| ->]; [|done].
  by destruct (PyStr.is_empty r).
Qed.

(** the probe finds the first entry that has a remainder *)
Lemma probe_found (path : string) (entries : gen (string * header))
    (obj_path : string) (h : header) (r : string) :
  (obj_path, h) ∈ Gen.items entries ->
  remainder path obj_path = Some r ->
  exists item, Gen.next (list_sub path false ∅ entries) = Ok (Some item).
Proof.
  induction entries as [|[obj_path' h'] entries IH|e]; cbn [Gen.items].
  - by intros ?%elem_of_nil.
  - intros Hin Hr. rewrite list_sub_full_step.
    destruct (remainder path obj_path') as [r'|] eqn:Hr'; [by eexists|].
    apply elem_of_cons in Hin as [[= -> ->]|Hin]; [congruence|by apply IH].
  - by intros ?%elem_of_nil.
Qed.

(** without such an entry the probe ends as the listing of the storage does *)
Lemma probe_nothing (path : string) (entries : gen (string * header)) :
  (forall obj_path h, (obj_path, h) ∈ Gen.items entries ->
     remainder path obj_path = None) ->
  list_sub path false ∅ entries = Gen.finish (Gen.ending entries).
Proof.
  induction entries as [|[obj_path h] entries IH|e]; cbn [Gen.items]; intros Hnone.
  - done.
  - rewrite list_sub_full_step, (Hnone obj_path h) by by left.
    apply IH. intros obj_path' h' Hin. apply (Hnone obj_path' h'). by right.
  - done.
Qed.

(** an entry has a remainder exactly when its key shows something under
    the key part *)
Lemma remainder_shows (tail key : string) :
  (exists r, remainder tail key = Some r) <-> shows tail key.
Proof.
  unfold remainder, strip_prefix, shows, PyStr.split1.
  destruct (PyStr.is_empty tail) eqn:Htail.
  - destruct key as [|c key]; simpl; split; [by intros [r ?]|done|done|by eexists].
  - simpl. destruct (PyStr.find_split tail key) as [[a b]|] eqn:Hsplit; simpl.
    + pose proof (find_split_sound _ _ _ _ Hsplit) as Hkey.
      destruct (PyStr.lstrip b) as [|c r] eqn:Hb; simpl.
      * split; [by intros [r ?]|]. intros (before & after & Hocc & Hafter).
        exfalso. apply lstrip_empty in Hb as [k ->].
        pose proof (find_split_least _ _ _ _ Hsplit before after Hocc) as Hle.
        unfold occurs_at in Hocc. rewrite Hkey in Hocc.
        destruct (str_app_split _ _ _ _ Hocc Hle) as (d & -> & Hrest).
        rewrite <- str_app_assoc in Hrest.
        destruct (str_app_split tail (PyStr.slashes k) (d +:+ tail) after Hrest)
          as (e & _ & He); [rewrite str_app_length; lia|].
        destruct (slashes_suffix _ _ _ He) as [j Hj]. by apply (Hafter j).
      * split; [|by eexists]. intros _. exists a, b. split; [done|].
        intros k ->. rewrite <- (str_app_nil_r (PyStr.slashes k)) in Hb.
        by rewrite lstrip_slashes_app in Hb.
    + split; [by intros [r ?]|]. intros (before & after & Hocc & _).
      by destruct (find_split_none _ _ Hsplit before after).
Qed.

Lemma remainder_not_shown (tail key : string) :
  remainder tail key = None <-> ~ shows tail key.
Proof.
  rewrite <- remainder_shows. split.
  - by intros -> [r ?].
  - intros Hnone. destruct (remainder tail key) as [r|]; [|done].
    destruct Hnone. by exists r.
Qed.

(** C3 (as amended).  [isdir] of the root is true.  For a path that is not
    the root and that ends with a separator or names a locator, [isdir] is
    true when the existence check succeeds.  When it fails, the answer (with
    [virtual_dir], the default) is that of a listing, with one entry per
    request, of the locator of the path under the key part that follows the
    locator: true as soon as a listed key shows something there -- any key
    that is not empty when the path is a locator, and otherwise a key in
    which the key part is followed by more than separators -- and, without
    such a key, false when the listing ends normally or with
    [ObjectNotFoundError] or [UnsupportedOperation], any other exception
    being raised.  With [dir/file.txt] as only object, [isdir] is true for
    [dir/] and false for [dir/nonexist/]; with [loc//] as only object it is
    true for [loc/], and with [loc/dir//] as only object it is false for
    [loc/dir/]. *)
Theorem isdir_virtual_directory {K : Type} (self : System K)
    (path relative : string) (kw : option K) (slash : bool) :
  relpath (roots self) path = Ok relative ->
  (relative = "" -> forall virtual_dir, isdir self path kw virtual_dir = Ok true)
  /\ (relative <> "" ->
      PyStr.ends_with_slash path = Ok slash ->
      slash = true \/ is_locator (roots self) relative true = Ok true ->
      (exists_ self path kw = Ok true ->
         forall virtual_dir, isdir self path kw virtual_dir = Ok true)
      /\ (exists_ self path kw = Ok false ->
          forall locator tail kwl,
            split_locator (roots self) relative = Ok (locator, tail) ->
            get_client_kwargs self locator = Ok kwl ->
            let entries := _list_objects self kwl tail (Some 1%nat) in
            (forall obj_path h,
               (obj_path, h) ∈ Gen.items entries ->
               shows tail obj_path ->
               isdir self path kw true = Ok true)
            /\ ((forall obj_path h,
                   (obj_path, h) ∈ Gen.items entries ->
                   ~ shows tail obj_path) ->
                isdir self path kw true =
                  match Gen.ending entries with
                  | None => Ok false
                  | Some e =>
                      if is_not_found e || is_unsupported e
                      then Ok false else Raise e
                  end)))
  /\ isdir file_store "dir/" None true = Ok true
  /\ isdir file_store "dir/nonexist/" None true = Ok false
  /\ isdir separator_key_store "loc/" None true = Ok true
  /\ isdir double_separator_store "loc/dir/" None true = Ok false.
Proof.
  intros Hrel. split_and!; [| |reflexivity..].
  - intros -> virtual_dir. unfold isdir. by rewrite Hrel.
  - intros Hrelative Hslash Hdir.
    assert (forall virtual_dir,
      isdir self path kw virtual_dir =
        match exists_ self path kw with
        | Ok true => Ok true
        | Ok false =>
            if virtual_dir then
              match Gen.next (list_objects self relative true false (Some 1%nat)) with
              | Ok (Some _) => Ok true
              | Ok None => Ok false
              | Raise e =>
                  if is_not_found e || is_unsupported e then Ok false else Raise e
              end
            else Ok false
        | Raise e => Raise e
        end) as Hisdir.
    { intros virtual_dir. unfold isdir. rewrite Hrel. simpl.
      destruct relative; [done|]. simpl. rewrite Hslash. simpl.
      assert ((if slash then Ok true else is_locator (roots self) (String a relative) true)
              = Ok true) as ->.
      { destruct slash; [done|]. by destruct Hdir. }
      simpl. by destruct (exists_ self path kw) as [[]|]. }
    split.
    + intros Hexists virtual_dir. by rewrite Hisdir, Hexists.
    + intros Hexists locator tail kwl Hsplit Hkw entries.
      assert (list_objects self relative true false (Some 1%nat)
              = list_sub tail false ∅ entries) as Hlisting.
      { unfold list_objects. simpl. destruct relative; [done|].
        simpl. rewrite Hsplit. simpl. by rewrite Hkw. }
      split.
      * intros obj_path h Hin [r Hr]%remainder_shows.
        rewrite Hisdir, Hexists, Hlisting.
        by destruct (probe_found tail entries obj_path h r Hin Hr) as [item ->].
      * intros Hnone. rewrite Hisdir, Hexists, Hlisting, probe_nothing.
        -- by destruct (Gen.ending entries).
        -- intros obj_path h Hin. apply remainder_not_shown. by apply (Hnone obj_path h).
Qed.

Lemma isdir_virtual_directory_witness :
  isdir file_store "dir/" None true = Ok true.
Proof.
  pose proof (isdir_virtual_directory file_store "dir/" "dir/" None true eq_refl)
    as (_ & Hdir & _).
  destruct (Hdir ltac:(discriminate) eq_refl (or_introl eq_refl)) as [_ Hvirtual].
  destruct (Hvirtual eq_refl "dir" "" ("dir", "") eq_refl eq_refl) as [Hshown _].
  apply (Hshown "file.txt" [("Content-Length", VInt 3)]).
  - vm_compute. left.
  - discriminate.
Defined.

(** C3 as stated does not hold: an entry that has the path as a prefix does
    not make [isdir] true when only separators follow the path in its key. *)
Lemma isdir_prefix_not_enough :
  ~ (forall (self : System MemStore.kwargs) path relative kw locator tail kwl obj_path h,
       relpath (roots self) path = Ok relative ->
       relative <> "" ->
       PyStr.ends_with_slash path = Ok true ->
       exists_ self path kw = Ok false ->
       split_locator (roots self) relative = Ok (locator, tail) ->
       get_client_kwargs self locator = Ok kwl ->
       (obj_path, h) ∈ Gen.items (_list_objects self kwl tail (Some 1%nat)) ->
       String.prefix tail obj_path = true ->
       isdir self path kw true = Ok true).
Proof.
  intros H.
  specialize (H double_separator_store "loc/dir/" "loc/dir/" None "loc" "dir/"
                ("loc", "") "dir//" [("Content-Length", VInt 3)]
                eq_refl ltac:(discriminate) eq_refl eq_refl eq_refl eq_refl).
  assert (isdir double_separator_store "loc/dir/" None true = Ok true) as Hbad.
  { apply H; [|reflexivity]. vm_compute. left. }
  vm_compute in Hbad. discriminate Hbad.
Qed.

(** ** Dictionaries *)

Lemma dict_get_set (k : string) (v : value) (d : dict) :
  Dict.get k (Dict.set k v d) = Some v.
Proof.
  induction d as [|[k' v'] d IH]; simpl.
  - by rewrite String.eqb_refl.
  - destruct (String.eqb k k') eqn:Hk; simpl; rewrite Hk; [done|exact IH].
Qed.

Lemma dict_get_set_ne (k k' : string) (v : value) (d : dict) :
  k <> k' -> Dict.get k (Dict.set k' v d) = Dict.get k d.
Proof.
  intros Hne. induction d as [|[k'' v''] d IH]; simpl.
  - by apply String.eqb_neq in Hne as ->.
  - destruct (String.eqb k' k'') eqn:Hk; simpl.
    + apply String.eqb_eq in Hk as <-. by apply String.eqb_neq in Hne as ->.
    + by rewrite IH.
Qed.

Lemma dict_keys_set (k : string) (v : value) (d : dict) :
  Dict.keys d `prefix_of` Dict.keys (Dict.set k v d).
Proof.
  unfold Dict.keys. induction d as [|[k' v'] d IH]; csimpl.
  - apply prefix_nil.
  - destruct (String.eqb k k'); csimpl; [done|]. by apply prefix_cons.
Qed.

Lemma add_header_keys_keys {K : Type} (self : System K) (h : header) (st : dict) :
  Dict.keys st `prefix_of` Dict.keys (add_header_keys self st h).
Proof.
  unfold add_header_keys. revert st. induction h as [|[k v] h IH]; intros st; simpl.
  - done.
  - etrans; [apply dict_keys_set|apply IH].
Qed.

Lemma add_header_keys_get {K : Type} (self : System K) (field : string)
    (h : header) (st : dict) :
  (forall key, key ∈ Dict.keys h -> stat_key self key <> field) ->
  Dict.get field (add_header_keys self st h) = Dict.get field st.
Proof.
  unfold add_header_keys, Dict.keys. revert st.
  induction h as [|[k v] h IH]; intros st Hkeys; simpl; [done|].
  rewrite IH.
  - apply dict_get_set_ne. intros ->. apply (Hkeys k); [by left|done].
  - intros key Hkey. apply Hkeys. by right.
Qed.

(** ** stat *)

Lemma last_total (s : string) : s <> "" -> exists c, PyStr.last s = Ok c.
Proof.
  destruct s as [|c s]; [done|]. intros _. revert c.
  induction s as [|c' s IH]; intros c; [by eexists|]. apply (IH c').
Qed.

Section Stat.

Context {K : Type}.
Variable self : System K.

Lemma stat_read_unfold (key : string) (method : header -> result value * header)
    (st : dict) (h : header) :
  stat_read self key method st h =
    match (let* v := (method h).1 in py_int (pylib self) v) with
    | Ok n => Ok (Dict.set key (VInt n) st, (method h).2)
    | Raise e => if is_unsupported e then Ok (st, (method h).2) else Raise e
    end.
Proof. unfold stat_read. by destruct (method h) as [r h']. Qed.

Lemma stat_read_readable (key : string) (method : header -> result value * header)
    (st : dict) (h : header) :
  readable (pylib self) (method h).1 ->
  stat_read self key method st h
  = Ok (stored (pylib self) key (method h).1 st, (method h).2).
Proof.
  rewrite stat_read_unfold. unfold readable, stored.
  destruct (let* v := (method h).1 in py_int (pylib self) v) as [n|e]; [done|].
  by intros ->.
Qed.

Lemma stat_read_ok (key : string) (method : header -> result value * header)
    (st st' : dict) (h h' : header) :
  stat_read self key method st h = Ok (st', h') ->
  readable (pylib self) (method h).1
  /\ st' = stored (pylib self) key (method h).1 st /\ h' = (method h).2.
Proof.
  rewrite stat_read_unfold. unfold readable, stored.
  destruct (let* v := (method h).1 in py_int (pylib self) v) as [n|e].
  - by intros [= <- <-].
  - destruct (is_unsupported e); [|done]. by intros [= <- <-].
Qed.

(** the headers the three readers see, one after the other *)
Lemma stat_standard_readable (st : dict) (h : header) :
  let size := _getsize_from_header self h in
  let ctime := _getctime_from_header self size.2 in
  let mtime := _getmtime_from_header self ctime.2 in
  readable (pylib self) size.1 ->
  readable (pylib self) ctime.1 ->
  readable (pylib self) mtime.1 ->
  stat_standard self st h =
    Ok (stored (pylib self) "st_mtime" mtime.1
          (stored (pylib self) "st_ctime" ctime.1
             (stored (pylib self) "st_size" size.1 st)),
        mtime.2).
Proof.
  intros size ctime mtime Hsize Hctime Hmtime. unfold stat_standard.
  rewrite stat_read_readable by done. simpl.
  rewrite stat_read_readable by done. simpl.
  by rewrite stat_read_readable by done.
Qed.

Lemma stat_standard_ok (st st' : dict) (h h' : header) :
  stat_standard self st h = Ok (st', h') ->
  let size := _getsize_from_header self h in
  let ctime := _getctime_from_header self size.2 in
  let mtime := _getmtime_from_header self ctime.2 in
  st' = stored (pylib self) "st_mtime" mtime.1
          (stored (pylib self) "st_ctime" ctime.1
             (stored (pylib self) "st_size" size.1 st))
  /\ h' = mtime.2.
Proof.
  unfold stat_standard. intros Hstat.
  destruct (stat_read self "st_size" _ st h) as [[st1 h1]|] eqn:H1; [|done].
  apply stat_read_ok in H1 as (_ & -> & ->). simpl in Hstat.
  destruct (stat_read self "st_ctime" _ _ _) as [[st2 h2]|] eqn:H2; [|done].
  apply stat_read_ok in H2 as (_ & -> & ->). simpl in Hstat.
  by apply stat_read_ok in Hstat as (_ & -> & ->).
Qed.

Lemma stored_get_ne (field key : string) (r : result value) (st : dict) :
  field <> key ->
  Dict.get field (stored (pylib self) key r st) = Dict.get field st.
Proof.
  intros Hne. unfold stored.
  destruct (let* v := r in py_int (pylib self) v); [|done].
  by apply dict_get_set_ne.
Qed.

Lemma stored_get_unsupported (key : string) (r : result value) (st : dict) :
  unsupported r ->
  Dict.get key (stored (pylib self) key r st) = Dict.get key st.
Proof. intros [name ->]. done. Qed.

Lemma stored_keys (key : string) (r : result value) (st : dict) :
  Dict.keys st `prefix_of` Dict.keys (stored (pylib self) key r st).
Proof.
  unfold stored. destruct (let* v := r in py_int (pylib self) v); [|done].
  apply dict_keys_set.
Qed.

Lemma dir_like_path_true (path : string) (dir_like : bool) :
  dir_like_path self path = Ok dir_like ->
  (dir_like = true <->
     path = "" \/ PyStr.ends_with_slash path = Ok true
     \/ is_locator (roots self) path false = Ok true).
Proof.
  unfold dir_like_path. destruct path as [|c path].
  - intros [= <-]. split; [by left|done].
  - cbn [PyStr.is_empty].
    destruct (PyStr.ends_with_slash (String c path)) as [[]|e]; simpl.
    + intros [= <-]. split; [by right; left|done].
    + intros ->. split; [by intros ->; right; right|].
      by intros [?|[?|[= ->]]].
    + done.
Qed.

Lemma dir_like_path_total (path : string) :
  roots_ok (roots self) -> exists dir_like, dir_like_path self path = Ok dir_like.
Proof.
  intros Hroots. unfold dir_like_path. destruct path as [|c path]; [by eexists|].
  cbn [PyStr.is_empty]. unfold PyStr.ends_with_slash.
  destruct (last_total (String c path)) as [c' ->]; [done|]. simpl.
  destruct (PyStr.is_slash c'); [by eexists|].
  unfold is_locator. destruct (relpath_returns _ (String c path) Hroots) as [r ->].
  by eexists.
Qed.

End Stat.

Lemma stat_size_read {K : Type} (self : System K) (h h' : header) (st0 : dict) :
  stat_standard self stat_init h = Ok (st0, h') ->
  Dict.get "st_size" st0 = Some (VInt (size_read self h)).
Proof.
  intros [-> _]%stat_standard_ok.
  rewrite !stored_get_ne by done. unfold stored, size_read.
  destruct (let* v := (_getsize_from_header self h).1 in py_int (pylib self) v);
    [apply dict_get_set|done].
Qed.

(** C2 (as amended).  The mode of the stat result is the directory mode if
    and only if the size is zero -- none was read from the header, or the one
    read is 0 -- and the path is empty (or absent), ends with a separator or
    is a locator; it is the regular file mode in every other case.  (The
    header is supposed to leave no key that is published as [st_mode].) *)
Theorem stat_mode_directory {K : Type} (self : System K) (path : string)
    (kw : option K) (header_arg : option header) (h h' : header) (st0 : dict)
    (dir_like : bool) :
  head self path kw header_arg = Ok h ->
  stat_standard self stat_init h = Ok (st0, h') ->
  dir_like_path self path = Ok dir_like ->
  (forall key, key ∈ Dict.keys h' -> stat_key self key <> "st_mode") ->
  exists st,
    stat self path kw header_arg = Ok st
    /\ (dir_like = true <->
          path = "" \/ PyStr.ends_with_slash path = Ok true
          \/ is_locator (roots self) path false = Ok true)
    /\ (Dict.get "st_mode" st = Some (VInt S_IFDIR) <->
          size_read self h = 0%Z /\ dir_like = true)
    /\ (Dict.get "st_mode" st = Some (VInt S_IFREG) <->
          ~ (size_read self h = 0%Z /\ dir_like = true)).
Proof.
  intros Hhead Hstandard Hdir Hkeys.
  pose proof (stat_size_read self h h' st0 Hstandard) as Hsize.
  eexists. split_and!.
  - unfold stat. rewrite Hhead. simpl. rewrite Hstandard. simpl.
    rewrite Hdir. simpl. rewrite Hsize. simpl. reflexivity.
  - by apply dir_like_path_true.
  - rewrite add_header_keys_get, dict_get_set by done.
    destruct dir_like; simpl; [|by split; [|intros [_ ?]]].
    destruct (Z.eqb_spec (size_read self h) 0) as [->|Hne]; simpl.
    + done.
    + split; [done|]. by intros [? _].
  - rewrite add_header_keys_get, dict_get_set by done.
    destruct dir_like; simpl; [|by split; [intros _ [_ ?]|]].
    destruct (Z.eqb_spec (size_read self h) 0) as [->|Hne]; simpl.
    + split; [done|]. by intros [].
    + split; [|done]. by intros _ [? _].
Qed.

Lemma stat_mode_directory_witness :
  exists st,
    stat file_store "dir/sub/" None (Some [("Content-Length", VInt 0)]) = Ok st
    /\ Dict.get "st_mode" st = Some (VInt S_IFDIR).
Proof.
  destruct (stat_mode_directory file_store "dir/sub/" None
              (Some [("Content-Length", VInt 0)]) [("Content-Length", VInt 0)] []
              (Dict.set "st_size" (VInt 0) (stat_init)) true
              eq_refl eq_refl eq_refl)
    as (st & Hstat & _ & Hmode & _).
  - intros key Hkey. by apply elem_of_nil in Hkey.
  - exists st. split; [exact Hstat|]. apply Hmode. split; reflexivity.
Defined.

(** C2 as stated does not hold: a size read as 0 makes a directory as well
    as no size at all. *)
Lemma stat_zero_size_is_directory :
  ~ (forall (self : System MemStore.kwargs) path h st,
       stat self path None (Some h) = Ok st ->
       (Dict.get "st_mode" st = Some (VInt S_IFDIR) <->
          (exists e, (_getsize_from_header self h).1 = Raise e)
          /\ (PyStr.ends_with_slash path = Ok true
              \/ is_locator (roots self) path false = Ok true))).
Proof.
  intros H.
  destruct (H file_store "dir/sub/" [("Content-Length", VInt 0)] _ eq_refl)
    as [Hdir _].
  destruct (Hdir eq_refl) as [[e He] _]. vm_compute in He. discriminate He.
Qed.

Lemma dict_get_key (k : string) (d : dict) :
  k ∈ Dict.keys d -> exists v, Dict.get k d = Some v.
Proof.
  unfold Dict.keys. induction d as [|[k' v'] d IH]; csimpl.
  - by intros ?%elem_of_nil.
  - destruct (String.eqb_spec k k') as [->|Hne]; [by eexists|].
    intros [?|?]%elem_of_cons; [done|by apply IH].
Qed.

(** a header without any of the keys of a default reader *)
Lemma getsize_from_keys_missing (py : PyLib) (keys : list string) (h : header) :
  (forall key, key ∈ keys -> Dict.get key h = None) ->
  getsize_from_keys py keys h = (Raise (UnsupportedOperation "getsize"), h).
Proof.
  induction keys as [|key keys IH]; intros Hmissing; simpl; [done|].
  unfold Dict.pop. rewrite (Hmissing key) by by left.
  apply IH. intros key' Hkey'. apply Hmissing. by right.
Qed.

Lemma get_time_missing (py : PyLib) (keys : list string) (name : string) (h : header) :
  (forall key, key ∈ keys -> Dict.get key h = None) ->
  _get_time py h keys name = (Raise (UnsupportedOperation name), h).
Proof.
  induction keys as [|key keys IH]; intros Hmissing; simpl; [done|].
  unfold Dict.pop. rewrite (Hmissing key) by by left.
  apply IH. intros key' Hkey'. apply Hmissing. by right.
Qed.

(** C10 (as amended).  Let each standard reader, on the header the readers
    before it leave, either report its attribute as unsupported or give a
    value that [int] accepts.  Then [stat] returns: the unsupported
    attributes are caught.  The result has the ten standard fields, first and
    in their order.  The field of an unsupported attribute is 0, provided no
    key left in the header is published under the name of that field. *)
Theorem stat_missing_fields {K : Type} (self : System K) (path : string)
    (kw : option K) (h : header) :
  roots_ok (roots self) ->
  let size := _getsize_from_header self h in
  let ctime := _getctime_from_header self size.2 in
  let mtime := _getmtime_from_header self ctime.2 in
  readable (pylib self) size.1 ->
  readable (pylib self) ctime.1 ->
  readable (pylib self) mtime.1 ->
  exists st,
    stat self path kw (Some h) = Ok st
    /\ stat_fields `prefix_of` Dict.keys st
    /\ (forall field, field ∈ stat_fields -> exists v, Dict.get field st = Some v)
    /\ (unsupported size.1 ->
        (forall key, key ∈ Dict.keys mtime.2 -> stat_key self key <> "st_size") ->
        Dict.get "st_size" st = Some (VInt 0))
    /\ (unsupported ctime.1 ->
        (forall key, key ∈ Dict.keys mtime.2 -> stat_key self key <> "st_ctime") ->
        Dict.get "st_ctime" st = Some (VInt 0))
    /\ (unsupported mtime.1 ->
        (forall key, key ∈ Dict.keys mtime.2 -> stat_key self key <> "st_mtime") ->
        Dict.get "st_mtime" st = Some (VInt 0)).
Proof.
  intros Hroots size ctime mtime Hsize Hctime Hmtime.
  pose proof (stat_standard_readable self stat_init h Hsize Hctime Hmtime) as Hstandard.
  fold size ctime mtime in Hstandard.
  destruct (dir_like_path_total self path Hroots) as [dir_like Hdir].
  pose proof (stat_size_read self h _ _ Hstandard) as Hget.
  assert (exists mode, stat self path kw (Some h) =
            Ok (add_header_keys self
                  (Dict.set "st_mode" mode
                     (stored (pylib self) "st_mtime" mtime.1
                        (stored (pylib self) "st_ctime" ctime.1
                           (stored (pylib self) "st_size" size.1 stat_init))))
                  mtime.2)) as [mode Hstat].
  { eexists. unfold stat. simpl. rewrite Hstandard. simpl. rewrite Hdir. simpl.
    rewrite Hget. simpl. reflexivity. }
  assert (stat_fields `prefix_of`
            Dict.keys (add_header_keys self
                  (Dict.set "st_mode" mode
                     (stored (pylib self) "st_mtime" mtime.1
                        (stored (pylib self) "st_ctime" ctime.1
                           (stored (pylib self) "st_size" size.1 stat_init))))
                  mtime.2)) as Hfields.
  { etrans; [|apply add_header_keys_keys].
    etrans; [|apply dict_keys_set].
    do 3 (etrans; [|apply stored_keys]). done. }
  eexists. split_and!; [exact Hstat|exact Hfields|..].
  - intros field Hfield. apply dict_get_key.
    destruct Hfields as [more ->]. apply elem_of_app. by left.
  - intros Hnone Hkeys. rewrite add_header_keys_get by done.
    rewrite dict_get_set_ne, !stored_get_ne by done.
    by rewrite stored_get_unsupported.
  - intros Hnone Hkeys. rewrite add_header_keys_get by done.
    rewrite dict_get_set_ne, stored_get_ne by done.
    rewrite stored_get_unsupported by done. by rewrite stored_get_ne.
  - intros Hnone Hkeys. rewrite add_header_keys_get by done.
    rewrite dict_get_set_ne by done.
    rewrite stored_get_unsupported by done. by rewrite !stored_get_ne.
Qed.

Lemma stat_missing_fields_witness :
  exists st,
    stat file_store "dir/file.txt" None (Some [("X-Foo-Bar", VStr "v")]) = Ok st
    /\ Dict.get "st_size" st = Some (VInt 0).
Proof.
  destruct (stat_missing_fields file_store "dir/file.txt" None
              [("X-Foo-Bar", VStr "v")]) as (st & Hstat & _ & _ & Hsize & _).
  - repeat constructor. discriminate.
  - reflexivity.
  - reflexivity.
  - reflexivity.
  - exists st. split; [exact Hstat|]. apply Hsize.
    + by exists "getsize".
    + intros key Hkey. apply list_elem_of_singleton in Hkey as ->. discriminate.
Defined.

(** C10 as stated does not hold: the field of an attribute that no reader
    gives is not 0 when a key of the header is published under its name. *)
Lemma stat_field_overwritten :
  ~ (forall (self : System MemStore.kwargs) path h st name,
       stat self path None (Some h) = Ok st ->
       (_getsize_from_header self h).1 = Raise (UnsupportedOperation name) ->
       Dict.get "st_size" st = Some (VInt 0)).
Proof.
  intros H.
  specialize (H file_store "dir/file.txt" [("size", VInt 7)] _ "getsize"
                eq_refl eq_refl).
  vm_compute in H. discriminate H.
Qed.

(** * Further properties *)

(** ** Path resolution, continued *)

(** X1.  With literal roots, the relative path is a suffix of the path:
    [relpath] only removes text at the start. *)
Theorem relpath_literal_suffix (rs : list root) (path relative : string) :
  literal_roots rs ->
  relpath rs path = Ok relative ->
  exists drive, path = drive +:+ relative.
Proof.
  unfold relpath. induction 1 as [|r rs [s ->] _ IH]; simpl.
  - intros [= ->]. by exists "".
  - unfold PyStr.split1. destruct (PyStr.is_empty s); [done|].
    destruct (PyStr.find_split s path) as [[a b]|] eqn:Hsplit; simpl; [|exact IH].
    intros [= <-]. apply find_split_sound in Hsplit as ->.
    destruct (lstrip_slashes b) as [k Hb]. exists (a +:+ s +:+ PyStr.slashes k).
    rewrite Hb at 1. by rewrite !str_app_assoc.
Qed.

Lemma relpath_literal_suffix_witness :
  exists drive, "s3://bucket/key" = drive +:+ "bucket/key".
Proof.
  apply (relpath_literal_suffix [Literal "s3://"] "s3://bucket/key" "bucket/key").
  - repeat constructor. by eexists.
  - reflexivity.
Defined.

(** X2.  [split_locator] cuts the relative path at its first separator: the
    locator has no separator, and locator, separator and tail give the
    relative path back; without a separator the tail is empty. *)
Theorem split_locator_join (rs : list root) (path relative : string) :
  relpath rs path = Ok relative ->
  exists locator tail,
    split_locator rs path = Ok (locator, tail)
    /\ PyStr.has_slash locator = false
    /\ ((PyStr.has_slash relative = false /\ locator = relative /\ tail = "")
        \/ (PyStr.has_slash relative = true
            /\ relative = locator +:+ "/" +:+ tail)).
Proof.
  intros Hrel. unfold split_locator. rewrite Hrel. simpl. unfold PyStr.split1. simpl.
  pose proof (find_split_slash relative) as Hsplit.
  destruct (PyStr.find_split "/" relative) as [[locator tail]|].
  - destruct Hsplit as (? & ? & ?). exists locator, tail. split_and!; [done|done|].
    by right.
  - exists relative, "". split_and!; [done|done|]. by left.
Qed.

Lemma split_locator_join_witness :
  exists locator tail,
    split_locator [Literal "s3://"] "s3://bucket/dir/key" = Ok (locator, tail)
    /\ PyStr.has_slash locator = false.
Proof.
  destruct (split_locator_join [Literal "s3://"] "s3://bucket/dir/key"
              "bucket/dir/key" eq_refl) as (locator & tail & Hsplit & Hlocator & _).
  by exists locator, tail.
Defined.

(** X3.  A relative path is a locator exactly when it is not empty and is a
    name without separator followed by any number of separators; the name
    may be empty, so a path made of separators only is a locator. *)
Theorem is_locator_shape (rs : list root) (path : string) :
  is_locator rs path true = Ok true <->
  path <> "" /\ exists name k,
    path = name +:+ PyStr.slashes k /\ PyStr.has_slash name = false.
Proof.
  unfold is_locator. simpl. split.
  - intros [= [Hempty Hslash]%andb_true_iff].
    apply negb_true_iff in Hempty, Hslash. split; [by apply is_empty_false|].
    destruct (rstrip_decompose path) as [k Hk]. by exists (PyStr.rstrip path), k.
  - intros (Hpath & name & k & -> & Hname).
    rewrite rstrip_app_slashes, rstrip_no_slash, Hname by done.
    apply is_empty_false in Hpath. by rewrite Hpath.
Qed.

(** ** ensure_dir_path *)

(** X4.  For a relative path, [ensure_dir_path] changes trailing separators
    only, gives a path that ends with a separator unless the path is empty
    or a locator, and is idempotent. *)
Theorem ensure_dir_path_idempotent {K : Type} (self : System K) (path : string) :
  exists dir_path,
    ensure_dir_path self path true = Ok dir_path
    /\ PyStr.rstrip dir_path = PyStr.rstrip path
    /\ (path <> "" -> is_locator (roots self) path true = Ok false ->
        PyStr.ends_with_slash dir_path = Ok true)
    /\ ensure_dir_path self dir_path true = Ok dir_path.
Proof.
  assert (forall p, ensure_dir_path self p true =
            Ok (if negb (PyStr.is_empty p) && negb (PyStr.has_slash (PyStr.rstrip p))
                then PyStr.rstrip p
                else if negb (PyStr.is_empty p) then PyStr.rstrip p +:+ "/" else p))
    as Hensure.
  { intros p. unfold ensure_dir_path, is_locator. simpl.
    by destruct (negb (PyStr.is_empty p) && negb (PyStr.has_slash (PyStr.rstrip p))),
      (negb (PyStr.is_empty p)). }
  unfold is_locator. simpl. rewrite Hensure.
  destruct (PyStr.is_empty path) eqn:Hpath.
  { apply is_empty_true in Hpath as ->. by exists "". }
  cbn [negb andb].
  destruct (PyStr.has_slash (PyStr.rstrip path)) eqn:Hslash; cbn [negb].
  - eexists. split_and!; [done|by rewrite rstrip_app_slash, rstrip_idempotent| |].
    + intros _ _. apply last_app_slash.
    + rewrite Hensure, rstrip_app_slash, rstrip_idempotent, Hslash.
      assert (PyStr.is_empty (PyStr.rstrip path +:+ "/") = false) as ->; [|done].
      by destruct (PyStr.rstrip path).
  - eexists. split_and!; [done|by rewrite rstrip_idempotent|done|].
    rewrite Hensure, rstrip_idempotent, Hslash.
    by destruct (PyStr.is_empty (PyStr.rstrip path)) eqn:Hr;
      [apply is_empty_true in Hr as ->|].
Qed.

(** ** isdir and isfile together *)

(** X5.  For a path given in its relative form, [isdir] and [isfile] are
    never both true: a path that is a file is not a directory, whatever the
    storage lists, and a path that is a directory is not a file. *)
Theorem isdir_isfile_exclusive {K : Type} (self : System K) (path : string)
    (kw : option K) (virtual_dir : bool) :
  relpath (roots self) path = Ok path ->
  (isfile self path kw = Ok true -> isdir self path kw virtual_dir = Ok false)
  /\ (isdir self path kw virtual_dir = Ok true -> isfile self path kw = Ok false).
Proof.
  intros Hrel. unfold isfile, isdir, is_locator. rewrite Hrel. simpl.
  destruct (PyStr.is_empty path);
    [split; intros Hboth; first [reflexivity|discriminate Hboth]|].
  destruct (PyStr.ends_with_slash path) as [[]|e]; simpl;
    [split; intros Hboth; first [reflexivity|discriminate Hboth]|
     |split; intros Hboth; discriminate Hboth].
  destruct (PyStr.has_slash (PyStr.rstrip path)); simpl;
    (split; intros Hboth; first [reflexivity|discriminate Hboth]).
Qed.

Lemma isdir_isfile_exclusive_witness :
  isfile file_store "dir/file.txt" None = Ok true
  /\ isdir file_store "dir/file.txt" None true = Ok false.
Proof.
  split; [reflexivity|].
  apply (isdir_isfile_exclusive file_store "dir/file.txt" None true eq_refl).
  reflexivity.
Defined.

(** X6.  On a storage that cannot list (the listing of [SystemBase] is not
    overridden), [isdir] of a path that looks like a directory and whose
    existence check fails is false: the [UnsupportedOperation] of the listing
    does not reach the caller. *)
Theorem isdir_without_listing {K : Type} (self : System K)
    (path relative locator tail : string) (kw : option K) (kwl : K) :
  _list_objects self = _list_objects_default ->
  relpath (roots self) path = Ok relative ->
  relative <> "" ->
  PyStr.ends_with_slash path = Ok true ->
  exists_ self path kw = Ok false ->
  split_locator (roots self) relative = Ok (locator, tail) ->
  get_client_kwargs self locator = Ok kwl ->
  list_objects self relative true false (Some 1%nat)
    = Throw (UnsupportedOperation "listdir")
  /\ isdir self path kw true = Ok false.
Proof.
  intros Hdefault Hrel Hne Hslash Hexists Hsplit Hkw.
  assert (list_objects self relative true false (Some 1%nat)
          = Throw (UnsupportedOperation "listdir")) as Hlisting.
  { unfold list_objects. simpl. apply is_empty_false in Hne as ->.
    rewrite Hsplit. simpl. rewrite Hkw. simpl. by rewrite Hdefault. }
  split; [done|]. unfold isdir. rewrite Hrel. simpl.
  apply is_empty_false in Hne as ->. rewrite Hslash. simpl.
  by rewrite Hexists, Hlisting.
Qed.

Lemma isdir_without_listing_witness :
  isdir unlistable_store "loc/dir/" None true = Ok false.
Proof.
  exact (proj2 (isdir_without_listing unlistable_store "loc/dir/" "loc/dir/"
                  "loc" "dir/" None ("loc", "") eq_refl eq_refl
                  ltac:(discriminate) eq_refl eq_refl eq_refl eq_refl)).
Defined.

(** ** The default header readers *)

Lemma dict_get_remove (k : string) (d : dict) :
  Dict.get k (Dict.remove k d) = None.
Proof.
  induction d as [|[k' v'] d IH]; [done|]. simpl.
  destruct (String.eqb k k') eqn:Hk; [done|]. simpl. by rewrite Hk.
Qed.

Lemma dict_get_remove_ne (k k' : string) (d : dict) :
  k <> k' -> Dict.get k (Dict.remove k' d) = Dict.get k d.
Proof.
  intros Hne. induction d as [|[k'' v''] d IH]; [done|]. simpl.
  destruct (String.eqb k' k'') eqn:Hk'; simpl.
  - apply String.eqb_eq in Hk' as <-. by apply String.eqb_neq in Hne as ->.
  - by rewrite IH.
Qed.

(** X7.  The size is read under the first key of the list that the header
    has: its value goes through [int], the key is removed from the header
    and every other key is left as it is. *)
Theorem getsize_first_key (py : PyLib) (before after : list string) (key : string)
    (h : header) (v : value) :
  (forall k, k ∈ before -> Dict.get k h = None) ->
  Dict.get key h = Some v ->
  let read := getsize_from_keys py (before ++ key :: after) h in
  read.1 = (let* n := py_int py v in Ok (VInt n))
  /\ Dict.get key read.2 = None
  /\ (forall k, k <> key -> Dict.get k read.2 = Dict.get k h).
Proof.
  intros Hbefore Hkey.
  assert (getsize_from_keys py (before ++ key :: after) h
          = (let* n := py_int py v in Ok (VInt n), Dict.remove key h)) as ->.
  { induction before as [|k before IH]; simpl.
    - unfold Dict.pop. by rewrite Hkey.
    - unfold Dict.pop. rewrite (Hbefore k) by by left.
      apply IH. intros k' Hk'. apply Hbefore. by right. }
  simpl. split_and!; [done|apply dict_get_remove|].
  intros k Hk. by apply dict_get_remove_ne.
Qed.

Lemma getsize_first_key_witness :
  (getsize_from_keys MemStore.py ["Size"; "Content-Length"]
     [("Content-Length", VStr "10"); ("ETag", VStr "abc")]).1 = Ok (VInt 10).
Proof.
  apply (getsize_first_key MemStore.py ["Size"] [] "Content-Length"
           [("Content-Length", VStr "10"); ("ETag", VStr "abc")] (VStr "10")).
  - intros k Hk. apply list_elem_of_singleton in Hk as ->. reflexivity.
  - reflexivity.
Defined.

(** X8.  A time is read under the first key of the list that the header
    has: the value is parsed as a date, or converted with [float] when the
    parser refuses its type; the key is removed from the header and every
    other key is left as it is.  Without any of the keys the reader reports
    the attribute as unsupported and leaves the header as it is. *)
Theorem get_time_first_key (py : PyLib) (before after : list string)
    (key name : string) (h : header) (v : value) :
  (forall k, k ∈ before -> Dict.get k h = None) ->
  (Dict.get key h = Some v ->
   let read := _get_time py h (before ++ key :: after) name in
   read.1 = match parse_timestamp py v with
            | Raise (TypeError _) => py_float py v
            | r => r
            end
   /\ Dict.get key read.2 = None
   /\ (forall k, k <> key -> Dict.get k read.2 = Dict.get k h))
  /\ (_get_time py h before name = (Raise (UnsupportedOperation name), h)).
Proof.
  intros Hbefore. split; [|by apply get_time_missing].
  intros Hkey.
  assert (_get_time py h (before ++ key :: after) name
          = (match parse_timestamp py v with
             | Raise (TypeError _) => py_float py v
             | r => r
             end, Dict.remove key h)) as ->.
  { induction before as [|k before IH]; simpl.
    - unfold Dict.pop. by rewrite Hkey.
    - unfold Dict.pop. rewrite (Hbefore k) by by left.
      apply IH. intros k' Hk'. apply Hbefore. by right. }
  simpl. split_and!; [done|apply dict_get_remove|].
  intros k Hk. by apply dict_get_remove_ne.
Qed.

Lemma get_time_first_key_witness :
  (_get_time MemStore.py [("Last-Modified", VInt 1500000000)]
     ["Last-Modified"] "getmtime").1 = Ok (VFloat 1500000000 0).
Proof.
  destruct (get_time_first_key MemStore.py [] [] "Last-Modified" "getmtime"
              [("Last-Modified", VInt 1500000000)] (VInt 1500000000)) as [Hread _].
  - intros k Hk. by apply elem_of_nil in Hk.
  - apply Hread. reflexivity.
Defined.

(** ** stat, continued *)

Lemma stat_unfold {K : Type} (self : System K) (path : string) (kw : option K)
    (header_arg : option header) (h h' : header) (st0 : dict) (dir_like : bool) :
  head self path kw header_arg = Ok h ->
  stat_standard self stat_init h = Ok (st0, h') ->
  dir_like_path self path = Ok dir_like ->
  exists mode,
    stat self path kw header_arg
    = Ok (add_header_keys self (Dict.set "st_mode" (VInt mode) st0) h').
Proof.
  intros Hhead Hstandard Hdir. eexists. unfold stat.
  rewrite Hhead. simpl. rewrite Hstandard. simpl. rewrite Hdir. simpl.
  rewrite (stat_size_read self h h' st0 Hstandard). simpl. reflexivity.
Qed.

(** X9.  The size in the stat result is the size [getsize] gives for the same
    header, as an integer (the header being supposed to leave no key that is
    published as [st_size]). *)
Theorem stat_size_is_getsize {K : Type} (self : System K) (path : string)
    (kw : option K) (header_arg : option header) (h h' : header) (st0 : dict)
    (dir_like : bool) (v : value) (n : Z) :
  head self path kw header_arg = Ok h ->
  getsize self path kw header_arg = Ok v ->
  py_int (pylib self) v = Ok n ->
  stat_standard self stat_init h = Ok (st0, h') ->
  dir_like_path self path = Ok dir_like ->
  (forall key, key ∈ Dict.keys h' -> stat_key self key <> "st_size") ->
  exists st,
    stat self path kw header_arg = Ok st
    /\ Dict.get "st_size" st = Some (VInt n).
Proof.
  intros Hhead Hgetsize Hint Hstandard Hdir Hkeys.
  destruct (stat_unfold self path kw header_arg h h' st0 dir_like Hhead Hstandard Hdir)
    as [mode Hstat].
  eexists. split; [exact Hstat|].
  rewrite add_header_keys_get, dict_get_set_ne by done.
  rewrite (stat_size_read self h h' st0 Hstandard). unfold size_read.
  unfold getsize in Hgetsize. rewrite Hhead in Hgetsize. simpl in Hgetsize.
  rewrite Hgetsize. simpl. by rewrite Hint.
Qed.

Lemma stat_size_is_getsize_witness :
  exists st,
    stat file_store "dir/file.txt" None None = Ok st
    /\ Dict.get "st_size" st = Some (VInt 3).
Proof.
  exact (stat_size_is_getsize file_store "dir/file.txt" None None
           [("Content-Length", VInt 3)] [] (Dict.set "st_size" (VInt 3) stat_init)
           false (VInt 3) 3 eq_refl eq_refl eq_refl eq_refl eq_refl
           (fun key Hkey => False_ind _ (proj1 (elem_of_nil key) Hkey))).
Defined.

Lemma add_header_keys_app {K : Type} (self : System K) (st : dict) (h1 h2 : header) :
  add_header_keys self st (h1 ++ h2)
  = add_header_keys self (add_header_keys self st h1) h2.
Proof. unfold add_header_keys. apply fold_left_app. Qed.

(** X10.  Every key that the standard readers leave in the header is
    published in the stat result under its normalised name, with its value;
    when several keys have the same normalised name, the last one is kept. *)
Theorem stat_publishes_header {K : Type} (self : System K) (path : string)
    (kw : option K) (header_arg : option header) (h h' : header) (st0 : dict)
    (dir_like : bool) :
  head self path kw header_arg = Ok h ->
  stat_standard self stat_init h = Ok (st0, h') ->
  dir_like_path self path = Ok dir_like ->
  exists st,
    stat self path kw header_arg = Ok st
    /\ (forall (earlier later : header) key v,
          h' = earlier ++ (key, v) :: later ->
          (forall k, k ∈ Dict.keys later -> stat_key self k <> stat_key self key) ->
          Dict.get (stat_key self key) st = Some v).
Proof.
  intros Hhead Hstandard Hdir.
  destruct (stat_unfold self path kw header_arg h h' st0 dir_like Hhead Hstandard Hdir)
    as [mode Hstat].
  eexists. split; [exact Hstat|].
  intros earlier later key v -> Hlater.
  rewrite add_header_keys_app. cbn [add_header_keys fold_left].
  fold (add_header_keys self (Dict.set (stat_key self (key, v).1) (key, v).2
          (add_header_keys self (Dict.set "st_mode" (VInt mode) st0) earlier)) later).
  rewrite add_header_keys_get by done. apply dict_get_set.
Qed.

Lemma stat_publishes_header_witness :
  exists st,
    stat file_store "dir/file.txt" None
      (Some [("Content-Length", VInt 10); ("X-Foo-Bar", VStr "v")]) = Ok st
    /\ Dict.get "st_xfoobar" st = Some (VStr "v").
Proof.
  destruct (stat_publishes_header file_store "dir/file.txt" None
              (Some [("Content-Length", VInt 10); ("X-Foo-Bar", VStr "v")])
              [("Content-Length", VInt 10); ("X-Foo-Bar", VStr "v")]
              [("X-Foo-Bar", VStr "v")]
              (Dict.set "st_size" (VInt 10) stat_init) false
              eq_refl eq_refl eq_refl) as (st & Hstat & Hkeys).
  exists st. split; [exact Hstat|].
  apply (Hkeys [] [] "X-Foo-Bar" (VStr "v") eq_refl).
  intros k Hk. by apply elem_of_nil in Hk.
Defined.




(** ** Listing, continued *)

Lemma list_sub_full_items (path : string) (seen : gset string)
    (entries : gen (string * header)) :
  Gen.items (list_sub path false seen entries) = listed path (Gen.items entries)
  /\ Gen.ending (list_sub path false seen entries) = Gen.ending entries.
Proof.
  unfold listed.
  induction entries as [|[obj_path h] entries [IHitems IHending]|e]; [done| |done].
  rewrite list_sub_full_step. cbn [Gen.items Gen.ending]. csimpl.
  destruct (remainder path obj_path) as [r|]; [|done].
  cbn [Gen.items Gen.ending]. by rewrite IHitems.
Qed.

(** the remainder of a key is its name under the key part *)
Lemma remainder_left_under (tail key name : string) :
  remainder tail key = Some name <-> left_under tail key name.
Proof.
  unfold remainder, strip_prefix, left_under, PyStr.split1.
  destruct (PyStr.is_empty tail) eqn:Htail.
  - destruct key as [|c key]; simpl.
    + split; [done|]. by intros [? ->].
    + split; [by intros [= <-]|]. by intros [_ ->].
  - simpl. destruct (PyStr.find_split tail key) as [[a b]|] eqn:Hsplit; simpl.
    + destruct (PyStr.lstrip b) as [|c r] eqn:Hb; simpl.
      * split; [done|]. intros (Hname & before & after & k & Hfirst & -> & Hstart).
        apply find_split_first_occurrence in Hfirst. rewrite Hsplit in Hfirst.
        injection Hfirst as -> ->.
        rewrite lstrip_slashes_app, lstrip_id in Hb by done. done.
      * split.
        -- intros [= <-]. split; [done|].
           destruct (lstrip_slashes b) as [k Hk]. rewrite Hb in Hk.
           exists a, b, k. split_and!; [by apply find_split_first_occurrence|done|].
           rewrite <- Hb. apply lstrip_no_leading_slash.
        -- intros (_ & before & after & k & Hfirst & -> & Hstart).
           apply find_split_first_occurrence in Hfirst. rewrite Hsplit in Hfirst.
           injection Hfirst as -> ->.
           rewrite lstrip_slashes_app, lstrip_id in Hb by done. by rewrite Hb.
    + split; [done|]. intros (_ & before & after & k & Hfirst & _).
      apply find_split_first_occurrence in Hfirst. by rewrite Hsplit in Hfirst.
Qed.

Lemma listed_listing_of (tail : string) (entries : list (string * header)) :
  listing_of tail entries (listed tail entries).
Proof.
  unfold listed. induction entries as [|[key h] entries IH]; [constructor|].
  csimpl. destruct (remainder tail key) as [name|] eqn:Hname; csimpl.
  - apply listing_named; [by apply remainder_left_under|done].
  - apply listing_skipped; [|done].
    intros name Hleft%remainder_left_under. congruence.
Qed.

(** X12.  The full listing of a path that is not the root takes the entries
    that the storage lists for the locator of the path under the key part
    that follows the locator, in their order and with their own headers.
    Without key part (the path is a locator) every entry whose key is not
    empty is yielded under its key as it is.  With a key part, an entry is
    yielded when the key part occurs in its key and is followed by more than
    separators, under what follows the first occurrence of the key part and
    the separators after it; the other entries are left out.  The listing
    ends as the listing of the storage does. *)
Theorem full_listing {K : Type} (self : System K)
    (path locator tail : string) (kw : K) (max_request_entries : option nat) :
  path <> "" ->
  split_locator (roots self) path = Ok (locator, tail) ->
  get_client_kwargs self locator = Ok kw ->
  let entries := _list_objects self kw tail max_request_entries in
  let listing := list_objects self path true false max_request_entries in
  listing_of tail (Gen.items entries) (Gen.items listing)
  /\ Gen.ending listing = Gen.ending entries
  /\ (forall key h name,
        (key, h) ∈ Gen.items entries ->
        left_under tail key name ->
        (name, h) ∈ Gen.items listing).
Proof.
  intros Hpath Hsplit Hkw entries listing.
  assert (listing = list_sub tail false ∅ entries) as ->.
  { unfold listing, list_objects. simpl. apply is_empty_false in Hpath as ->.
    rewrite Hsplit. simpl. by rewrite Hkw. }
  destruct (list_sub_full_items tail ∅ entries) as [Hitems Hending].
  rewrite Hitems. split_and!; [apply listed_listing_of|done|].
  intros key h name Hin Hname%remainder_left_under. unfold listed.
  apply list_elem_of_omap. exists (key, h). split; [done|]. simpl. by rewrite Hname.
Qed.

Lemma full_listing_witness :
  ("x", [("Content-Length", VInt 1)])
    ∈ Gen.items (list_objects abc_store "loc/a" true false None)
  /\ ("/", [("Content-Length", VInt 3)])
       ∈ Gen.items (list_objects separator_key_store "loc" true false None).
Proof.
  split.
  - apply (proj2 (proj2 (full_listing abc_store "loc/a" "loc" "a" ("loc", "") None
                           ltac:(discriminate) eq_refl eq_refl)) "a/x").
    + vm_compute. left.
    + split; [discriminate|]. exists "", "/x", 1%nat.
      split_and!; [by apply find_split_first_occurrence|reflexivity|reflexivity].
  - apply (proj2 (proj2 (full_listing separator_key_store "loc" "loc" "" ("loc", "") None
                           ltac:(discriminate) eq_refl eq_refl)) "/").
    + vm_compute. left.
    + split; [discriminate|reflexivity].
Defined.

(** X13.  When the locators can be enumerated to the end and the content of
    each of them ends normally or with a permission error, the full listing
    from the root ends normally and yields every locator, without its
    trailing separators and with its header.  When the enumeration of the
    locators itself fails, the listing fails with the same exception. *)
Theorem root_listing_complete {K : Type} (self : System K) (path : string)
    (max_request_entries : option nat) :
  relpath (roots self) path = Ok "" ->
  Forall (enumerable self max_request_entries) (Gen.items (_list_locators self)) ->
  let listing := list_objects self path false false max_request_entries in
  Gen.ending listing = Gen.ending (_list_locators self)
  /\ (forall loc_path loc_header,
        (loc_path, loc_header) ∈ Gen.items (_list_locators self) ->
        (PyStr.rstrip loc_path, loc_header) ∈ Gen.items listing).
Proof.
  intros Hroot Hall listing.
  assert (listing = list_root_tree self (_list_locators self) max_request_entries)
    as ->.
  { unfold listing, list_objects. by rewrite Hroot. }
  induction (_list_locators self) as [|[loc_path loc_header] locators IH|e].
  - split; [done|]. by intros ? ? ?%elem_of_nil.
  - cbn [Gen.items] in Hall. apply Forall_cons in Hall as [Hloc Hall].
    destruct (IH Hall) as [IHending IHitems].
    rewrite list_root_tree_step. cbn [Gen.ending Gen.items].
    rewrite gen_ending_prepend, gen_items_prepend.
    unfold enumerable in Hloc. simpl in Hloc.
    assert (match Gen.ending (locator_content self max_request_entries
                                (PyStr.rstrip loc_path)) with
            | None => list_root_tree self locators max_request_entries
            | Some e =>
                if is_permission e
                then list_root_tree self locators max_request_entries
                else Throw e
            end = list_root_tree self locators max_request_entries) as ->.
    { destruct (Gen.ending _) as [e|]; [by rewrite Hloc|done]. }
    split; [done|].
    intros loc_path' loc_header' [[= -> ->]|Hin]%elem_of_cons; [by left|].
    right. apply elem_of_app. right. by apply IHitems.
  - split; [done|]. by intros ? ? ?%elem_of_nil.
Qed.

Lemma root_listing_complete_witness :
  Gen.ending (list_objects guarded_store "s3://" false false None) = None.
Proof.
  apply (root_listing_complete guarded_store "s3://" None eq_refl).
  repeat constructor.
Defined.

(** ** The S3 system *)

Section S3SystemProperties.

Variable rs : list root.
Variable client : S3System.Client.
Variable py : PyLib.
Variable to_timestamp : value -> result value.

Let s3 : System S3System.Kwargs := s3_system rs client py to_timestamp.

(** X14.  For a path inside a bucket that does not end with a separator,
    [remove] deletes the object whose key is the path after the bucket, while
    [make_dir] puts an empty object under that key followed by a separator:
    the two do not address the same key. *)
Theorem s3_make_dir_remove_keys (path : string) :
  PyStr.has_slash path = true ->
  PyStr.rstrip path = path ->
  relpath rs path = Ok path ->
  relpath rs (path +:+ "/") = Ok (path +:+ "/") ->
  exists bucket key,
    path = bucket +:+ "/" +:+ key
    /\ PyStr.has_slash bucket = false
    /\ key <> ""
    /\ remove s3 (S3System._remove client) path true =
         S3._handle_client_error
           (S3System.send client
              (S3System.DeleteObject
                 {| S3System.Bucket := bucket; S3System.Key := Some key |}))
    /\ make_dir s3 (S3System._make_dir client) path true =
         S3._handle_client_error
           (S3System.send client
              (S3System.PutObject []
                 {| S3System.Bucket := bucket; S3System.Key := Some (key +:+ "/") |})).
Proof.
  intros Hslash Hrstrip Hrel Hrel_dir.
  pose proof (find_split_slash path) as Hsplit.
  destruct (PyStr.find_split "/" path) as [[bucket key]|] eqn:Hfind;
    [|congruence].
  destruct Hsplit as (Hpath & Hbucket & _).
  assert (key <> "") as Hkey.
  { intros ->. rewrite Hpath, rstrip_app_slash, rstrip_no_slash in Hrstrip by done.
    apply (f_equal String.length) in Hrstrip. rewrite str_app_length in Hrstrip.
    simpl in Hrstrip. lia. }
  exists bucket, key. split_and!; [done|done|done|..].
  - unfold remove. simpl. unfold S3System.get_client_kwargs, split_locator.
    rewrite Hrel. simpl. unfold PyStr.split1. simpl. rewrite Hfind. simpl.
    apply is_empty_false in Hkey as ->. reflexivity.
  - unfold make_dir, ensure_dir_path, is_locator. simpl.
    rewrite Hrstrip, Hslash.
    assert (PyStr.is_empty path = false) as -> by by destruct path.
    simpl. unfold S3System.get_client_kwargs, split_locator.
    rewrite Hrel_dir. simpl. unfold PyStr.split1. simpl.
    rewrite Hpath at 1. rewrite !str_app_assoc.
    change (("/" +:+ key) +:+ "/") with ("/" +:+ (key +:+ "/")).
    rewrite find_split_first by done. simpl.
    assert (PyStr.is_empty (key +:+ "/") = false) as -> by by destruct key.
    reflexivity.
Qed.

(** X15.  For a bucket named without separator, [make_dir] creates the
    bucket, whatever the number of separators that follow its name in the
    path, and [remove] of the name deletes the bucket; no object is put or
    deleted. *)
Theorem s3_make_dir_remove_bucket (name : string) (k : nat) :
  name <> "" ->
  PyStr.has_slash name = false ->
  relpath rs name = Ok name ->
  make_dir s3 (S3System._make_dir client) (name +:+ PyStr.slashes k) true =
    S3._handle_client_error (S3System.send client (S3System.CreateBucket name))
  /\ remove s3 (S3System._remove client) name true =
      S3._handle_client_error (S3System.send client (S3System.DeleteBucket name)).
Proof.
  intros Hname Hslash Hrel.
  assert (S3System.get_client_kwargs rs name
          = Ok {| S3System.Bucket := name; S3System.Key := None |}) as Hkw.
  { unfold S3System.get_client_kwargs, split_locator. rewrite Hrel. simpl.
    unfold PyStr.split1. simpl. pose proof (find_split_slash name) as Hsplit.
    destruct (PyStr.find_split "/" name) as [[a b]|]; [|done].
    destruct Hsplit as (_ & _ & ?). congruence. }
  split.
  - unfold make_dir, ensure_dir_path, is_locator. simpl.
    rewrite rstrip_app_slashes, rstrip_no_slash, Hslash by done.
    assert (PyStr.is_empty (name +:+ PyStr.slashes k) = false) as ->
      by by destruct name.
    simpl. by rewrite Hkw.
  - unfold remove. simpl. by rewrite Hkw.
Qed.

(** X16.  [head] of the S3 system asks [head_bucket] for a path that names a
    bucket only and [head_object] for a path with a key.  The header it
    returns has neither ['AcceptRanges'] nor ['ResponseMetadata'] and keeps
    every other field of the response; an exception of the client is raised
    as [_handle_client_error] translates it. *)
Theorem s3_head_clean (path bucket key : string) :
  split_locator rs path = Ok (bucket, key) ->
  let kw := {| S3System.Bucket := bucket;
               S3System.Key := if PyStr.is_empty key then None else Some key |} in
  let response := if PyStr.is_empty key
                  then S3System.head_bucket client kw
                  else S3System.head_object client kw in
  (forall raw, response = Ok raw ->
     exists h, head s3 path None None = Ok h
       /\ Dict.get "AcceptRanges" h = None
       /\ Dict.get "ResponseMetadata" h = None
       /\ (forall k, k <> "AcceptRanges" -> k <> "ResponseMetadata" ->
             Dict.get k h = Dict.get k raw))
  /\ (forall e, response = Raise e ->
        head s3 path None None = Raise (translated e)).
Proof.
  intros Hsplit kw response.
  assert (head s3 path None None =
            let* h := S3._handle_client_error response in
            Ok (Dict.remove "ResponseMetadata" (Dict.remove "AcceptRanges" h)))
    as Hhead.
  { unfold head. simpl. unfold S3System.get_client_kwargs. rewrite Hsplit. simpl.
    unfold S3System._head, response, kw. simpl. by destruct (PyStr.is_empty key). }
  rewrite Hhead. split.
  - intros raw ->. simpl. eexists. split_and!; [done|..].
    + by rewrite dict_get_remove_ne, dict_get_remove.
    + apply dict_get_remove.
    + intros k Hk1 Hk2. by rewrite !dict_get_remove_ne.
  - intros e ->. by rewrite handle_client_error_raise.
Qed.

End S3SystemProperties.

Lemma s3_make_dir_remove_keys_witness :
  exists bucket key, "bucket/dir" = bucket +:+ "/" +:+ key /\ key <> "".
Proof.
  destruct (s3_make_dir_remove_keys [Literal "s3://"] quiet_client MemStore.py Ok
              "bucket/dir" eq_refl eq_refl eq_refl eq_refl)
    as (bucket & key & Hpath & _ & Hkey & _).
  exists bucket, key. split; [exact Hpath|exact Hkey].
Defined.

Lemma s3_make_dir_remove_bucket_witness :
  make_dir (s3_system [Literal "s3://"] quiet_client MemStore.py Ok)
    (S3System._make_dir quiet_client) "bucket//" true = Ok tt.
Proof.
  destruct (s3_make_dir_remove_bucket [Literal "s3://"] quiet_client MemStore.py Ok
              "bucket" 2 ltac:(discriminate) eq_refl eq_refl) as [Hmake _].
  exact Hmake.
Defined.

Lemma s3_head_clean_witness :
  head (s3_system [Literal "s3://"] quiet_client MemStore.py Ok)
    "s3://bucket/key" None None = Ok [].
Proof.
  destruct (s3_head_clean [Literal "s3://"] quiet_client MemStore.py Ok
              "s3://bucket/key" "bucket" "key" eq_refl) as [Hclean _].
  destruct (Hclean [] eq_refl) as (h & Hhead & _).
  rewrite Hhead. f_equal. vm_compute in Hhead. by injection Hhead as <-.
Defined.

(** ** The S3 listings *)

Lemma gen_of_list_app {A : Type} (l1 l2 : list A) :
  Gen.of_list (l1 ++ l2) = Gen.prepend l1 (Gen.of_list l2).
Proof. induction l1 as [|a l1 IH]; [done|]. simpl. by rewrite IH. Qed.

Lemma yield_contents_keyed (contents : list dict) (entries : list (string * header))
    (k : gen (string * header)) :
  keyed <$> contents = Some <$> entries ->
  S3.yield_contents contents k = Gen.prepend entries k.
Proof.
  revert entries. induction contents as [|obj contents IH]; intros entries Hkeyed.
  - by destruct entries.
  - destruct entries as [|entry entries]; [done|].
    injection Hkeyed as Hobj Hkeyed. simpl. unfold keyed in Hobj. unfold Dict.pop.
    destruct (Dict.get "Key" obj) as [[| |key]|]; try done.
    injection Hobj as <-. by rewrite (IH entries).
Qed.

(** X17.  When the bucket answers in pages linked by continuation tokens,
    the S3 listing asks for every page, each with the token of the page
    before, and yields the objects of all pages in order, each under its key
    and with its other fields as header; it then ends normally. *)
Theorem s3_listing_pages
    (list_objects_v2 : string -> S3.ListKwargs -> result S3.ListResponse)
    (bucket path : string) (pages : list (list dict))
    (entries : list (list (string * header))) (requests : nat) :
  paged list_objects_v2 bucket path None pages ->
  Forall2 (fun page listed_page => keyed <$> page = Some <$> listed_page)
    pages entries ->
  length pages <= requests ->
  S3._list_objects list_objects_v2 requests
    {| S3.Bucket := bucket; S3.ContinuationToken := None |} path
  = Gen.of_list (concat entries).
Proof.
  generalize (None : option string) as token.
  intros token Hpaged. revert entries requests.
  induction Hpaged as [token contents Hresponse
                      |token contents next pages Hresponse Hpaged IH];
    intros entries requests Hkeyed Hlength.
  - destruct requests as [|requests]; [simpl in Hlength; lia|].
    apply Forall2_cons_inv_l in Hkeyed as (listed_page & rest & Hpage & Hrest & ->).
    apply Forall2_nil_inv_l in Hrest as ->.
    simpl. rewrite Hresponse. simpl.
    rewrite (yield_contents_keyed _ _ _ Hpage), app_nil_r.
    clear. induction listed_page as [|a l IH]; [done|]. simpl. by rewrite IH.
  - destruct requests as [|requests]; [simpl in Hlength; lia|].
    apply Forall2_cons_inv_l in Hkeyed as (listed_page & rest & Hpage & Hrest & ->).
    simpl. rewrite Hresponse. simpl.
    rewrite (yield_contents_keyed _ _ _ Hpage), gen_of_list_app.
    f_equal. apply IH; [done|]. simpl in Hlength. lia.
Qed.

Lemma s3_listing_pages_witness :
  S3._list_objects two_pages 2
    {| S3.Bucket := "bucket"; S3.ContinuationToken := None |} ""
  = Gen.of_list [("a", [("Size", VInt 1)]); ("b", [("Size", VInt 2)])].
Proof.
  apply (s3_listing_pages two_pages "bucket" ""
           [[[("Key", VStr "a"); ("Size", VInt 1)]];
            [[("Key", VStr "b"); ("Size", VInt 2)]]]
           [[("a", [("Size", VInt 1)])]; [("b", [("Size", VInt 2)])]] 2).
  - apply (paged_more two_pages "bucket" "" None _ "next"); [reflexivity|].
    apply paged_last. reflexivity.
  - repeat constructor.
  - simpl. lia.
Defined.




(** X19.  When the multipart upload cannot be created, the first flush
    raises the translated exception and the writes stop there: the creation
    request is the only call made, no part is submitted and the stream keeps
    no upload id. *)
Theorem flush_create_refused (upload_part : S3.bytes -> Z -> string -> result string)
    (buffers : list S3.bytes) (e : exn) :
  buffers <> [] ->
  let closed := S3.write_and_close (Raise e) upload_part buffers in
  closed.1 = Raise (translated e)
  /\ S3.log closed.2 = [S3.CreateMultipartUpload]
  /\ S3._write_futures closed.2 = []
  /\ S3.UploadId closed.2 = None.
Proof.
  intros Hbuffers closed. destruct buffers as [|buffer buffers]; [done|].
  unfold closed, S3.write_and_close, S3.dispatch, S3._flush.
  cbn -[S3._handle_client_error]. by rewrite handle_client_error_raise.
Qed.

Lemma flush_create_refused_witness :
  (S3.write_and_close (Raise (ClientError "AccessDenied" "no"))
     second_part_fails [[]]).1 = Raise (ObjectPermissionError "no").
Proof.
  exact (proj1 (flush_create_refused second_part_fails [[]]
                  (ClientError "AccessDenied" "no") ltac:(discriminate))).
Defined.

(** ** Existence on S3 *)

Lemma s3_head_response (rs : list root) (client : S3System.Client) (py : PyLib)
    (to_timestamp : value -> result value) (path bucket key : string) :
  split_locator rs path = Ok (bucket, key) ->
  head (s3_system rs client py to_timestamp) path None None =
    let kw := {| S3System.Bucket := bucket;
                 S3System.Key := if PyStr.is_empty key then None else Some key |} in
    let* h := S3._handle_client_error
                (if PyStr.is_empty key then S3System.head_bucket client kw
                 else S3System.head_object client kw) in
    Ok (Dict.remove "ResponseMetadata" (Dict.remove "AcceptRanges" h)).
Proof.
  intros Hsplit. unfold head. simpl. unfold S3System.get_client_kwargs.
  rewrite Hsplit. simpl. unfold S3System._head. simpl.
  by destruct (PyStr.is_empty key).
Qed.

(** X20.  On S3, [exists] is true when the head request is answered, false
    when the client refuses it with code [404] or [NoSuchKey], raises
    [ObjectPermissionError] when the code is [403] or [AccessDenied], and
    raises the exception of the client as it is for any other code. *)
Theorem s3_exists (rs : list root) (client : S3System.Client) (py : PyLib)
    (to_timestamp : value -> result value) (path bucket key : string) :
  split_locator rs path = Ok (bucket, key) ->
  let kw := {| S3System.Bucket := bucket;
               S3System.Key := if PyStr.is_empty key then None else Some key |} in
  let response := if PyStr.is_empty key
                  then S3System.head_bucket client kw
                  else S3System.head_object client kw in
  let s3 := s3_system rs client py to_timestamp in
  (forall raw, response = Ok raw -> exists_ s3 path None = Ok true)
  /\ (forall code msg, response = Raise (ClientError code msg) ->
        exists_ s3 path None =
          if String.eqb code "404" || String.eqb code "NoSuchKey" then Ok false
          else if String.eqb code "403" || String.eqb code "AccessDenied"
               then Raise (ObjectPermissionError msg)
               else Raise (ClientError code msg)).
Proof.
  intros Hsplit kw response s3. subst kw response s3. unfold exists_.
  rewrite (s3_head_response _ _ _ _ _ _ _ Hsplit). cbv zeta. split.
  - intros raw Hraw. by rewrite Hraw.
  - intros code msg Hraise. rewrite Hraise. simpl. unfold S3._ERROR_CODES.
    destruct (String.eqb code "AccessDenied") eqn:H1.
    { apply String.eqb_eq in H1 as ->. reflexivity. }
    destruct (String.eqb code "NoSuchKey") eqn:H2.
    { apply String.eqb_eq in H2 as ->. reflexivity. }
    destruct (String.eqb code "403") eqn:H3.
    { apply String.eqb_eq in H3 as ->. reflexivity. }
    by destruct (String.eqb code "404").
Qed.

Lemma s3_exists_witness :
  exists_ (s3_system [Literal "s3://"] quiet_client MemStore.py Ok)
    "s3://bucket/key" None = Ok true.
Proof.
  destruct (s3_exists [Literal "s3://"] quiet_client MemStore.py Ok
              "s3://bucket/key" "bucket" "key" eq_refl) as [Hexists _].
  apply (Hexists []). reflexivity.
Defined.

(** ** Mount points and drives *)

Lemma rfind_split_short (sep s : string) :
  sep <> "" -> (String.length s < String.length sep)%nat ->
  OsPath.rfind_split sep s = None.
Proof.
  intros Hsep. induction s as [|c s IH]; intros Hlen.
  - by destruct sep.
  - cbn [OsPath.rfind_split]. rewrite IH by (simpl in Hlen; lia).
    destruct (String.prefix sep (String c s)) eqn:Hprefix; [|done].
    apply prefix_length in Hprefix. lia.
Qed.

Lemma rfind_split_suffix (sep p : string) :
  sep <> "" -> OsPath.rfind_split sep (p +:+ sep) = Some (p, "").
Proof.
  intros Hsep. induction p as [|c p IH].
  - destruct sep as [|c sep]; [done|]. change ("" +:+ String c sep) with (String c sep).
    cbn [OsPath.rfind_split]. rewrite rfind_split_short by (done || simpl; lia).
    pose proof (prefix_app (String c sep) "") as Hprefix.
    rewrite str_app_nil_r in Hprefix. rewrite Hprefix.
    pose proof (drop_app (String c sep) "") as Hdrop.
    rewrite str_app_nil_r in Hdrop. by rewrite Hdrop.
  - rewrite str_app_cons. cbn [OsPath.rfind_split]. by rewrite IH.
Qed.

Lemma last2_snoc (s : string) (c : ascii) :
  PyStr.is_slash c = false -> OsPath.last2 (s +:+ String c "") <> "//".
Proof.
  intros Hc. induction s as [|a s IH].
  - by simpl.
  - rewrite str_app_cons. cbn [OsPath.last2].
    destruct s as [|b s].
    + simpl. intros [= _ ->]. by vm_compute in Hc.
    + rewrite str_app_cons in *. destruct (s +:+ String c "") eqn:Hs; [by destruct s|].
      exact IH.
Qed.

Lemma last2_snoc_slash (s : string) (c : ascii) :
  PyStr.is_slash c = false -> OsPath.last2 (s +:+ String c "/") <> "//".
Proof.
  intros Hc. induction s as [|a s IH].
  - simpl. intros [= ->]. by vm_compute in Hc.
  - rewrite str_app_cons. cbn [OsPath.last2].
    destruct s as [|b s].
    + exact IH.
    + rewrite str_app_cons in *. destruct (s +:+ String c "/") eqn:Hs; [by destruct s|].
      exact IH.
Qed.

Lemma last2_app (s : string) (a b : ascii) :
  OsPath.last2 (s +:+ String a (String b "")) = String a (String b "").
Proof.
  induction s as [|c s IH]; [done|].
  rewrite str_app_cons. cbn [OsPath.last2].
  destruct s as [|d s]; [exact IH|].
  rewrite str_app_cons in *.
  destruct (s +:+ String a (String b "")) eqn:Hs; [by destruct s|]. exact IH.
Qed.

Lemma slashes_snoc (k : nat) :
  PyStr.slashes (S k) = PyStr.slashes k +:+ "/".
Proof.
  induction k as [|k IH]; [done|].
  change (PyStr.slashes (S (S k))) with (String PyStr.slash (PyStr.slashes (S k))).
  rewrite IH at 1. reflexivity.
Qed.

Lemma rstrip_fixed_last (s : string) :
  PyStr.rstrip s = s -> s <> "" ->
  exists t c, s = t +:+ String c "" /\ PyStr.is_slash c = false.
Proof.
  induction s as [|c s IH]; [done|]. simpl. intros Hfixed _.
  destruct (PyStr.is_slash c && PyStr.is_empty (PyStr.rstrip s)) eqn:Hc; [done|].
  injection Hfixed as Hfixed. rewrite Hfixed in Hc.
  destruct s as [|c' s].
  - exists "", c. split; [done|]. simpl in Hc. by rewrite andb_true_r in Hc.
  - destruct (IH Hfixed ltac:(done)) as (t & c'' & -> & Hc'').
    exists (String c t), c''. by rewrite str_app_cons.
Qed.

(** X22.  Off the mount points, when the path is a drive part, [k]
    separators and the relative path, the function written for [splitdrive]
    returns the whole text before the relative path as drive when it is
    empty or ends with two separators, and otherwise the drive part without
    separator and the relative path after one separator.  Drive and tail
    give the path back unless the drive part is not empty and no separator
    follows it: one is added then. *)
Theorem splitdrive_join (rs : list root) (path drive relative : string) (k : nat) :
  relpath rs path = Ok relative ->
  relative <> "" ->
  path = drive +:+ PyStr.slashes k +:+ relative ->
  PyStr.rstrip drive = drive ->
  OsPath.splitdrive_body rs path =
    Ok (if PyStr.is_empty (drive +:+ PyStr.slashes k) || (2 <=? k)%nat
        then (drive +:+ PyStr.slashes k, relative)
        else (drive, "/" +:+ relative))
  /\ (drive = "" \/ k <> 0%nat ->
      forall d tail,
        OsPath.splitdrive_body rs path = Ok (d, tail) -> d +:+ tail = path)
  /\ (drive <> "" -> k = 0%nat ->
      OsPath.splitdrive_body rs path = Ok (drive, "/" +:+ relative)).
Proof.
  intros Hrel Hrelative Hpath Hdrive.
  assert (OsPath.splitdrive_body rs path =
            Ok (if PyStr.is_empty (drive +:+ PyStr.slashes k) || (2 <=? k)%nat
                then (drive +:+ PyStr.slashes k, relative)
                else (drive, "/" +:+ relative))) as Hsplit.
  { unfold OsPath.splitdrive_body. rewrite Hrel. simpl. unfold OsPath.rsplit1.
    apply is_empty_false in Hrelative as Hempty. rewrite Hempty.
    rewrite Hpath, <- str_app_assoc, rfind_split_suffix by done. simpl.
    destruct (PyStr.is_empty (drive +:+ PyStr.slashes k)) eqn:Hprefix; [done|].
    simpl. destruct k as [|[|k]].
    - simpl. rewrite str_app_nil_r in *.
      apply is_empty_false in Hprefix.
      destruct (rstrip_fixed_last drive Hdrive Hprefix) as (t & c & -> & Hc).
      destruct (String.eqb _ "//") eqn:Heq.
      + apply String.eqb_eq in Heq. by apply last2_snoc in Heq.
      + simpl. by rewrite Hdrive.
    - simpl. destruct (String.eqb _ "//") eqn:Heq.
      + apply String.eqb_eq in Heq. destruct drive as [|c drive]; [done|].
        destruct (rstrip_fixed_last _ Hdrive ltac:(done)) as (t & c' & Ht & Hc).
        rewrite Ht, str_app_assoc in Heq. by apply last2_snoc_slash in Heq.
      + simpl. by rewrite rstrip_app_slash, Hdrive.
    - assert (drive +:+ PyStr.slashes (S (S k)) = (drive +:+ PyStr.slashes k) +:+ "//")
        as Hk by (by rewrite !slashes_snoc, !str_app_assoc).
      rewrite Hk at 1. by rewrite last2_app. }
  split; [exact Hsplit|]. split.
  - intros Hcase d tail. rewrite Hsplit.
    destruct (PyStr.is_empty (drive +:+ PyStr.slashes k) || (2 <=? k)%nat) eqn:Hif.
    + intros [= <- <-]. by rewrite Hpath, str_app_assoc.
    + intros [= <- <-]. apply orb_false_elim in Hif as [Hempty Hk].
      apply Nat.leb_gt in Hk. destruct Hcase as [->| Hk0].
      * destruct k as [|k]; [done|]. destruct k; [|lia]. by rewrite Hpath.
      * assert (k = 1%nat) as -> by lia. rewrite Hpath. simpl.
        by rewrite ?str_app_assoc.
  - intros Hne ->. rewrite Hsplit. simpl. rewrite str_app_nil_r.
    by apply is_empty_false in Hne as ->.
Qed.

Lemma splitdrive_join_witness :
  OsPath.splitdrive_body [Literal "s3://"] "s3://bucket/key" = Ok ("s3://", "bucket/key").
Proof.
  exact (proj1 (splitdrive_join [Literal "s3://"] "s3://bucket/key" "s3:" "bucket/key" 2
                  eq_refl ltac:(discriminate) eq_refl eq_refl)).
Defined.

(** ** Azure parameters *)

(** X23.  The listing arguments get [num_results] only for a maximum that
    is given and not zero; every other argument keeps its value, and without
    such a maximum the arguments are returned as they are. *)
Theorem azure_listing_kwargs (client_kwargs : dict) (max_request_entries : option nat) :
  let updated := Azure._update_listing_client_kwargs client_kwargs max_request_entries in
  (forall k, k <> "num_results" -> Dict.get k updated = Dict.get k client_kwargs)
  /\ Dict.get "num_results" updated =
       match max_request_entries with
       | Some (S n) => Some (VInt (Z.of_nat (S n)))
       | _ => Dict.get "num_results" client_kwargs
       end
  /\ Dict.keys client_kwargs `prefix_of` Dict.keys updated.
Proof.
  intros updated. unfold updated, Azure._update_listing_client_kwargs.
  destruct max_request_entries as [[|n]|]; split_and!; try done.
  - intros k Hk. by apply dict_get_set_ne.
  - apply dict_get_set.
  - apply dict_keys_set.
Qed.

(** X24.  The storage parameters get the protocol [http] exactly in
    unsecure mode; every other parameter keeps its value, and parameters
    that are not given count as none. *)
Theorem azure_storage_parameters (storage_parameters : option dict) (unsecure : bool) :
  let given := default [] storage_parameters in
  let updated := Azure._update_storage_parameters storage_parameters unsecure in
  (forall k, k <> "protocol" -> Dict.get k updated = Dict.get k given)
  /\ Dict.get "protocol" updated =
       (if unsecure then Some (VStr "http") else Dict.get "protocol" given).
Proof.
  intros given updated. unfold updated, given, Azure._update_storage_parameters.
  assert (match storage_parameters with
          | Some (kv :: d) => kv :: d
          | _ => []
          end = default [] storage_parameters) as ->.
  { by destruct storage_parameters as [[|? ?]|]. }
  destruct unsecure; split; try done.
  - intros k Hk. by apply dict_get_set_ne.
  - apply dict_get_set.
Qed.
